(** * CloudWatchLogDataTransformer: a shallow embedding and its properties

    The Lambda function of [CloudWatchLogDataTransformer..py] decodes the
    CloudWatch Logs subscription payloads of a Firehose transformation event,
    reshapes every log event and puts the resulting records on the delivery
    stream, retrying the records that failed.

    Python values are modelled as the JSON-shaped values [json.loads] yields,
    exceptions as an explicit result type, the Firehose client as a state
    transformer, and floating point as the kernel's binary64 numbers.  The
    interpreter's limit on the depth of recursion is a parameter of the
    retrying delivery.  The calls to [logger] write to the process log only
    and are left out. *)

From Stdlib Require Import ZArith Floats String Ascii List Lia.
From stdpp Require Import base tactics option list strings pretty.

Set Warnings "-register-all".
Open Scope string_scope.
Open Scope list_scope.
Open Scope Z_scope.

(** ** Python values, exceptions and a few built-ins *)

Module Py.

(** The exception classes the program can raise or meet.  [RuntimeError]
    carries its message (the program builds it) and [KeyError] the missing
    key; [DecodeError] stands for what [base64], [gzip] and [json] raise on a
    payload they cannot read; [RecursionError] is what the interpreter raises
    when a call would nest deeper than its recursion limit, and [OSError]
    what it makes of a failing call of the platform. *)
Inductive exn : Type :=
| KeyError (key : string)
| IndexError
| TypeError
| ValueError
| OverflowError
| OSError
| RuntimeError (msg : string)
| RecursionError
| DecodeError.

Inductive result (A : Type) : Type :=
| Ok (a : A)
| Raise (e : exn).
Arguments Ok {A} a.
Arguments Raise {A} e.

Definition bind {A B : Type} (r : result A) (k : A -> result B) : result B :=
  match r with
  | Ok a => k a
  | Raise e => Raise e
  end.

Declare Scope py_scope.
Delimit Scope py_scope with py.
Notation "x <- r ;; k" := (bind r (fun x => k))
  (at level 100, r at next level, right associativity) : py_scope.
Open Scope py_scope.

(** What [json.loads] returns: [None], [bool], [int], [float], [str], [list]
    and [dict] with string keys (kept in insertion order). *)
Inductive value : Type :=
| PNone
| PBool (b : bool)
| PInt (z : Z)
| PFloat (f : float)
| PStr (s : string)
| PList (l : list value)
| PDict (kvs : list (string * value)).

Fixpoint assoc {A : Type} (k : string) (kvs : list (string * A)) : option A :=
  match kvs with
  | [] => None
  | (k', v) :: rest => if String.eqb k k' then Some v else assoc k rest
  end.

(** [d[k] = v] on a dict kept in insertion order: an existing key keeps its
    place, a new key goes last. *)
Fixpoint setitem {A : Type} (k : string) (v : A) (kvs : list (string * A))
  : list (string * A) :=
  match kvs with
  | [] => [(k, v)]
  | (k', v') :: rest =>
      if String.eqb k k' then (k, v) :: rest else (k', v') :: setitem k v rest
  end.

(** [obj[k]] for a string key [k]: only a dict can be subscripted by a string,
    and a missing key raises [KeyError]. *)
Definition getitem (obj : value) (k : string) : result value :=
  match obj with
  | PDict kvs =>
      match assoc k kvs with
      | Some v => Ok v
      | None => Raise (KeyError k)
      end
  | _ => Raise TypeError
  end.

(** [obj == s] for a string literal [s]. *)
Definition eq_str (obj : value) (s : string) : bool :=
  match obj with
  | PStr s' => String.eqb s' s
  | _ => false
  end.

Fixpoint chars (s : string) : list value :=
  match s with
  | EmptyString => []
  | String c s' => PStr (String c EmptyString) :: chars s'
  end.

(** [for x in obj]: the items of a list, the keys of a dict, the characters
    of a string (one per byte here; they are only ever subscripted, which
    raises [TypeError] for each of them alike); nothing else is iterable. *)
Definition iter (obj : value) : result (list value) :=
  match obj with
  | PList l => Ok l
  | PDict kvs => Ok (map (fun kv => PStr (fst kv)) kvs)
  | PStr s => Ok (chars s)
  | _ => Raise TypeError
  end.

(** [str.lower()] on the ASCII letters.  The other cased characters of
    Unicode lower to non-ASCII text or to the letter k, which no name of
    [levels] contains, so the lookups below are not affected. *)
Definition lower_ascii (c : ascii) : ascii :=
  let n := N_of_ascii c in
  if ((65 <=? n) && (n <=? 90))%N then ascii_of_N (n + 32) else c.

Fixpoint lower (s : string) : string :=
  match s with
  | EmptyString => EmptyString
  | String c s' => String (lower_ascii c) (lower s')
  end.

(** [s.split(sep)] for a one-character separator. *)
Fixpoint split (sep : ascii) (s : string) : list string :=
  match s with
  | EmptyString => [EmptyString]
  | String c s' =>
      if Ascii.eqb c sep then EmptyString :: split sep s'
      else match split sep s' with
           | [] => [String c EmptyString]
           | seg :: segs => String c seg :: segs
           end
  end.

(** [sep.join(parts)]. *)
Fixpoint join (sep : string) (parts : list string) : string :=
  match parts with
  | [] => ""
  | [p] => p
  | p :: rest => p +:+ sep +:+ join sep rest
  end.

(** [str(n)] for an [int]. *)
Definition str_of_int (n : Z) : string := pretty n.

(** [l[i]] for a list and an index [i >= 0]. *)
Definition index {A : Type} (l : list A) (i : nat) : result A :=
  match l !! i with
  | Some a => Ok a
  | None => Raise IndexError
  end.

(** [float(n)] for an [int]: the nearest binary64 number, ties to even, and
    [OverflowError] beyond the largest one. *)
Definition float_of_int (n : Z) : result float :=
  match binary_normalize prec emax n 0 false with
  | S754_infinity _ => Raise OverflowError
  | sf => Ok (SF2Prim sf)
  end.

(** [x / 1000.0]: true division by a float.  [bool] is a subclass of [int];
    anything that is not a number raises [TypeError]. *)
Definition truediv (x : value) (d : float) : result float :=
  match x with
  | PInt z => f <- float_of_int z ;; Ok (PrimFloat.div f d)
  | PBool b => f <- float_of_int (if b then 1 else 0) ;; Ok (PrimFloat.div f d)
  | PFloat f => Ok (PrimFloat.div f d)
  | _ => Raise TypeError
  end.

End Py.

(** ** [datetime.fromtimestamp] and [isoformat] *)

Module DateTime.
Import Py.

(** A binary64 number read as sign, mantissa and exponent:
    [(-1)^neg * m * 2^e]. *)
Inductive shape : Type :=
| Finite (neg : bool) (m : Z) (e : Z)
| Infinite
| NaN.

Definition shape_of (d : float) : shape :=
  match Prim2SF d with
  | S754_zero s => Finite s 0 0
  | S754_finite s m e => Finite s (Zpos m) e
  | S754_infinity _ => Infinite
  | S754_nan => NaN
  end.

Definition signed (neg : bool) (n : Z) : Z := if neg then - n else n.

(** The integral part of [d], towards zero (the [intpart] of C's [modf]). *)
Definition trunc (d : float) : Z :=
  match shape_of d with
  | Finite neg m e => signed neg (Z.shiftl m e)
  | _ => 0
  end.

(** The nearest integer, ties to even ([_PyTime_ROUND_HALF_EVEN]). *)
Definition round_half_even (d : float) : Z :=
  match shape_of d with
  | Finite neg m e =>
      if 0 <=? e then signed neg (Z.shiftl m e)
      else
        let q := m / 2 ^ (- e) in
        let r := m mod 2 ^ (- e) in
        let half := 2 ^ (- e - 1) in
        signed neg (if (half <? r) || ((r =? half) && Z.odd q) then q + 1 else q)
  | _ => 0
  end.

(** A float timestamp as whole seconds and microseconds in [0, 10^6): the
    fractional part is scaled by [1e6] in floating point and then rounded.
    Not-a-number is a [ValueError]; what does not fit the 64-bit [time_t] is
    an [OverflowError]. *)
Definition timeval_of_double (d : float) : result (Z * Z) :=
  match shape_of d with
  | NaN => Raise ValueError
  | Infinite => Raise OverflowError
  | Finite _ _ _ =>
      let intpart := trunc d in
      let floatpart :=
        PrimFloat.sub d (SF2Prim (binary_normalize prec emax intpart 0 false)) in
      let us := round_half_even (PrimFloat.mul floatpart 1000000%float) in
      let '(intpart, us) :=
        if 1000000 <=? us then (intpart + 1, us - 1000000)
        else if us <? 0 then (intpart - 1, us + 1000000)
        else (intpart, us) in
      if (- 2 ^ 63 <=? intpart) && (intpart <? 2 ^ 63) then Ok (intpart, us)
      else Raise OverflowError
  end.

(** Broken-down time, as C's [struct tm] with the year and month already
    shifted to calendar numbers. *)
Record tm : Type := {
  tm_year : Z; tm_mon : Z; tm_mday : Z;
  tm_hour : Z; tm_min : Z; tm_sec : Z
}.

(** The proleptic Gregorian date of a day number counted from 1970-01-01. *)
Definition civil_from_days (days : Z) : Z * Z * Z :=
  let z := days + 719468 in
  let era := z / 146097 in
  let doe := z mod 146097 in
  let yoe := (doe - doe / 1460 + doe / 36524 - doe / 146096) / 365 in
  let doy := doe - (365 * yoe + yoe / 4 - yoe / 100) in
  let mp := (5 * doy + 2) / 153 in
  let d := doy - (153 * mp + 2) / 5 + 1 in
  let m := if mp <? 10 then mp + 3 else mp - 9 in
  let y := yoe + era * 400 + (if m <=? 2 then 1 else 0) in
  (y, m, d).

(** [gmtime]: seconds since the epoch as a UTC calendar time. *)
Definition gmtime (t : Z) : tm :=
  let '(y, m, d) := civil_from_days (t / 86400) in
  let s := t mod 86400 in
  {| tm_year := y; tm_mon := m; tm_mday := d;
     tm_hour := s / 3600; tm_min := (s mod 3600) / 60; tm_sec := s mod 60 |}.

Record datetime : Type := {
  year : Z; month : Z; day : Z;
  hour : Z; minute : Z; second : Z; microsecond : Z
}.

Definition is_leap (y : Z) : bool :=
  (y mod 4 =? 0) && (negb (y mod 100 =? 0) || (y mod 400 =? 0)).

Definition days_in_month (y m : Z) : Z :=
  if m =? 2 then (if is_leap y then 29 else 28)
  else if (m =? 4) || (m =? 6) || (m =? 9) || (m =? 11) then 30
  else 31.

Definition MINYEAR : Z := 1.
Definition MAXYEAR : Z := 9999.

Definition year_in_range (y : Z) : bool := (MINYEAR <=? y) && (y <=? MAXYEAR).

Definition valid (dt : datetime) : bool :=
  year_in_range (year dt)
  && (1 <=? month dt) && (month dt <=? 12)
  && (1 <=? day dt) && (day dt <=? days_in_month (year dt) (month dt))
  && (0 <=? hour dt) && (hour dt <=? 23)
  && (0 <=? minute dt) && (minute dt <=? 59)
  && (0 <=? second dt) && (second dt <=? 59)
  && (0 <=? microsecond dt) && (microsecond dt <=? 999999).

(** The constructor checks every field and raises [ValueError] otherwise. *)
Definition new_datetime (y m d hh mm ss us : Z) : result datetime :=
  let dt := {| year := y; month := m; day := d;
               hour := hh; minute := mm; second := ss; microsecond := us |} in
  if valid dt then Ok dt else Raise ValueError.

Section LocalTime.

(** The platform's time zone: the offset of local time from UTC, in seconds,
    at each instant. *)
Variable utcoffset : Z -> Z.

Definition localtime (t : Z) : tm := gmtime (t + utcoffset t).

(** The platform's [localtime_r] keeps the year less 1900 in a C [int] and
    fails when it does not fit; the interpreter raises [OSError] then. *)
Definition platform_localtime (t : Z) : result tm :=
  let broken := localtime t in
  if (- 2 ^ 31 <=? tm_year broken - 1900) && (tm_year broken - 1900 <? 2 ^ 31)
  then Ok broken
  else Raise OSError.

Definition check_year (y : Z) : result unit :=
  if year_in_range y then Ok tt else Raise ValueError.

(** [datetime.fromtimestamp(d)] without a [tz]: the naive local time of the
    instant.  Besides the result, the local time one day earlier is computed
    (the probe that detects a repeated hour), and its year is checked too. *)
Definition fromtimestamp (d : float) : result datetime :=
  tv <- timeval_of_double d ;;
  let '(timet, us) := tv in
  t <- platform_localtime timet ;;
  _ <- check_year (tm_year t) ;;
  probe <- platform_localtime (timet - 86400) ;;
  _ <- check_year (tm_year probe) ;;
  new_datetime (tm_year t) (tm_mon t) (tm_mday t)
               (tm_hour t) (tm_min t) (Z.min 59 (tm_sec t)) us.

End LocalTime.

Definition digit (n : Z) : ascii := ascii_of_N (48 + Z.to_N n).

(** [n] in [w] decimal digits, zero padded: the output of [%0wd] for
    [0 <= n < 10^w], which the fields of a [datetime] satisfy. *)
Fixpoint digits (w : nat) (n : Z) : string :=
  match w with
  | O => ""
  | S w' => digits w' (n / 10) +:+ String (digit (n mod 10)) ""
  end.

(** [dt.isoformat()]: the microseconds are printed only when they are not
    zero. *)
Definition isoformat (dt : datetime) : string :=
  digits 4 (year dt) +:+ "-" +:+ digits 2 (month dt) +:+ "-"
  +:+ digits 2 (day dt) +:+ "T" +:+ digits 2 (hour dt) +:+ ":"
  +:+ digits 2 (minute dt) +:+ ":" +:+ digits 2 (second dt)
  +:+ (if microsecond dt =? 0 then "" else "." +:+ digits 6 (microsecond dt)).

End DateTime.

(** ** The logger configuration at import time (lines 27-38) *)

Module Logging.
Import Py.

Definition CRITICAL : Z := 50.
Definition ERROR : Z := 40.
Definition WARNING : Z := 30.
Definition INFO : Z := 20.
Definition DEBUG : Z := 10.

Definition levels : list (string * Z) :=
  [("critical", CRITICAL); ("error", ERROR); ("warn", WARNING);
   ("info", INFO); ("debug", DEBUG)].

(** [os.getenv(name, default)] over the process environment. *)
Definition getenv (environ : list (string * string)) (name default : string)
  : string :=
  match assoc name environ with
  | Some v => v
  | None => default
  end.

(** [logger.setLevel(level)]: an [int] becomes the logger's level; [None] is
    neither an [int] nor a level name and raises [TypeError].  The result is
    the level the logger then has. *)
Definition setLevel (level : option Z) : result Z :=
  match level with
  | Some n => Ok n
  | None => Raise TypeError
  end.

(** [try: body except KeyError: handler]. *)
Definition except_KeyError {A : Type} (body : result A) (handler : result A)
  : result A :=
  match body with
  | Raise (KeyError _) => handler
  | r => r
  end.

(** Lines 35-38.  [levels.get] answers [None] for a missing name; it never
    raises [KeyError]. *)
Definition configure (environ : list (string * string)) : result Z :=
  except_KeyError
    (setLevel (assoc (lower (getenv environ "LOG_LEVEL" "info")) levels))
    (setLevel (Some INFO)).

End Logging.

(** ** The record transformer (lines 40-57) *)

Module Transformer.
Import Py DateTime.

(** One Firehose record, [{"Data": dataBytes}]. *)
Record FirehoseRecord : Type := { Data : string }.

Section Transformer.

Variable utcoffset : Z -> Z.

(** [json.dumps(d).encode("utf-8")], as the library renders a dict. *)
Variable dumps : list (string * value) -> string.

Definition transformLogEvent (logEvent owner logGroup logStream : value)
  : result (list (string * value)) :=
  let rV := [] in
  ts <- getitem logEvent "timestamp" ;;
  secs <- truediv ts 1000%float ;;
  dt <- fromtimestamp utcoffset secs ;;
  let rV := setitem "timestamp" (PStr (isoformat dt)) rV in
  id <- getitem logEvent "id" ;;
  let rV := setitem "id" id rV in
  let rV := setitem "type" (PStr "CloudWatchLogs") rV in
  message <- getitem logEvent "message" ;;
  let rV := setitem "@message" message rV in
  let rV := setitem "@owner" owner rV in
  let rV := setitem "@log_group" logGroup rV in
  let rV := setitem "@log_stream" logStream rV in
  Ok rV.

(** The body of the [for] loop of [createRecordsFromLogEvents], with the
    list [rV] built so far. *)
Fixpoint createRecords_loop (logEvents : list value)
    (owner logGroup logStream : value) (rV : list FirehoseRecord)
  : result (list FirehoseRecord) :=
  match logEvents with
  | [] => Ok rV
  | logEvent :: rest =>
      transformedLogEvent <- transformLogEvent logEvent owner logGroup logStream ;;
      let dataBytes := dumps transformedLogEvent in
      createRecords_loop rest owner logGroup logStream
        (rV ++ [{| Data := dataBytes |}])
  end.

Definition createRecordsFromLogEvents (logEvents owner logGroup logStream : value)
  : result (list FirehoseRecord) :=
  events <- iter logEvents ;;
  createRecords_loop events owner logGroup logStream [].

End Transformer.
End Transformer.

(** ** The retrying delivery (lines 59-87) *)

Module Delivery.
Import Py Transformer.

(** One entry of [RequestResponses]; the key [ErrorCode] may be missing. *)
Record RequestResponse : Type := { ErrorCode : option string }.

(** The answer of [put_record_batch]. *)
Record PutRecordBatchOutput : Type := {
  FailedPutCount : Z;
  RequestResponses : list RequestResponse
}.

(** A call either returns an answer or raises; [Faulted msg] carries
    [str(e)] of the exception. *)
Inductive PutOutcome : Type :=
| Returned (response : PutRecordBatchOutput)
| Faulted (msg : string).

(** One call of the client as the run observes it. *)
Record Call : Type := {
  call_stream : string;
  call_records : list FirehoseRecord;
  call_outcome : PutOutcome
}.

(** Truth value of a list. *)
Definition truthy {A : Type} (l : list A) : bool :=
  match l with
  | [] => false
  | _ => true
  end.

(** The [for] loop of lines 71-76 from index [idx] on, with the lists
    [codes] and [failedRecords] built so far. *)
Fixpoint scan (records : list FirehoseRecord) (idx : nat)
    (responses : list RequestResponse)
    (codes : list string) (failedRecords : list FirehoseRecord)
  : result (list string * list FirehoseRecord) :=
  match responses with
  | [] => Ok (codes, failedRecords)
  | res :: rest =>
      match ErrorCode res with
      | None | Some EmptyString => scan records (S idx) rest codes failedRecords
      | Some code =>
          r <- index records idx ;;
          scan records (S idx) rest (codes ++ [code]) (failedRecords ++ [r])
      end
  end.

(** Lines 60-78: the records that count as failed after one call, and the
    error text.  After an exception [failedRecords] is the list [records]
    itself; the loop, the only place that appends to it, is not entered
    then, so the caller's list is never changed. *)
Definition classify (records : list FirehoseRecord) (outcome : PutOutcome)
  : result (list FirehoseRecord * string) :=
  let codes := [] in
  let '(failedRecords, errMsg, response) :=
    match outcome with
    | Returned response => ([], "", Some response)
    | Faulted msg => (records, msg, None)
    end in
  match response with
  | Some response =>
      if negb (truthy failedRecords) && (0 <? FailedPutCount response) then
        r <- scan records 0 (RequestResponses response) codes failedRecords ;;
        Ok (snd r, "Individual error codes: " +:+ join "," (fst r))
      else Ok (failedRecords, errMsg)
  | None => Ok (failedRecords, errMsg)
  end.

Section Delivery.

(** The Firehose client: its state, and [put_record_batch] as a transition
    that answers or raises. *)
Variable Client : Type.
Variable put_record_batch :
  Client -> string -> list FirehoseRecord -> PutOutcome * Client.

(** The result is what the call returns or raises, the client afterwards
    and the calls made, in order.  Every retry nests one call deeper:
    [frames] is the number of retries the interpreter's recursion limit still
    allows below this call, and the retry after the last of them (lines
    82-83) raises [RecursionError].  An exception out of the client's own
    call, of whatever kind, is caught at line 65 and is a [Faulted] outcome. *)
Fixpoint putRecordsToFirehoseStream (frames : nat) (streamName : string)
    (records : list FirehoseRecord) (client : Client)
    (attemptsMade maxAttempts : Z)
  : result unit * Client * list Call :=
  let answer := put_record_batch client streamName records in
  let call := {| call_stream := streamName; call_records := records;
                 call_outcome := fst answer |} in
  match classify records (fst answer) with
  | Raise e => (Raise e, snd answer, [call])
  | Ok (failedRecords, errMsg) =>
      if decide (0 < length failedRecords)%nat then
        if decide (attemptsMade + 1 < maxAttempts) then
          match frames with
          | O => (Raise RecursionError, snd answer, [call])
          | S frames' =>
              let rest := putRecordsToFirehoseStream frames' streamName
                            failedRecords (snd answer) (attemptsMade + 1)
                            maxAttempts in
              (fst (fst rest), snd (fst rest), call :: snd rest)
          end
        else
          let msg := "Could not put records after " +:+ str_of_int maxAttempts
                     +:+ " attempts. " +:+ errMsg in
          (Raise (RuntimeError msg), snd answer, [call])
      else (Ok tt, snd answer, [call])
  end.

End Delivery.
End Delivery.

(** ** The pipeline (lines 89-114) *)

Module Pipeline.
Import Py Transformer Delivery.

(** One entry of [event['records']]. *)
Record InputItem : Type := { data : string }.

(** The invocation event. *)
Record Event : Type := {
  region : string;
  deliveryStreamArn : string;
  records : list InputItem
}.

(** [arn.split('/')[1]] of line 110. *)
Definition stream_name (arn : string) : result string :=
  index (split "/" arn) 1.

Section Pipeline.

Variable utcoffset : Z -> Z.
Variable dumps : list (string * value) -> string.

(** Lines 92-95: [base64.b64decode], [gzip] and [json.loads] on the text of
    one item, as the libraries behave: the parsed payload, or what they
    raise. *)
Variable decode : string -> result value.

Variable Client : Type.
Variable put_record_batch :
  Client -> string -> list FirehoseRecord -> PutOutcome * Client.

(** The retries that the recursion limit allows a delivery started at line
    102. *)
Variable frames : nat.

(** [boto3.client('firehose', region_name=region)]. *)
Variable firehose_client : string -> Client.

(** Lines 92-100 for one item: the records to deliver, or [None] when the
    payload is not a data message. *)
Definition firehoseRecords_of (r : InputItem)
  : result (option (list FirehoseRecord)) :=
  payload <- decode (data r) ;;
  messageType <- getitem payload "messageType" ;;
  if eq_str messageType "DATA_MESSAGE" then
    logEvents <- getitem payload "logEvents" ;;
    owner <- getitem payload "owner" ;;
    logGroup <- getitem payload "logGroup" ;;
    logStream <- getitem payload "logStream" ;;
    firehoseRecords <-
      createRecordsFromLogEvents utcoffset dumps logEvents owner logGroup logStream ;;
    Ok (Some firehoseRecords)
  else Ok None.

(** The [for] loop of [processRecords] with the list [rV] built so far.  An
    exception leaves the loop at once. *)
Fixpoint processRecords_loop (records : list InputItem) (client : Client)
    (streamName : string) (rV : list (list FirehoseRecord))
  : result (list (list FirehoseRecord)) * Client * list Call :=
  match records with
  | [] => (Ok rV, client, [])
  | r :: rest =>
      match firehoseRecords_of r with
      | Raise e => (Raise e, client, [])
      | Ok None => processRecords_loop rest client streamName rV
      | Ok (Some firehoseRecords) =>
          let rV := rV ++ [firehoseRecords] in
          let put := putRecordsToFirehoseStream Client put_record_batch
                       frames streamName firehoseRecords client 0 20 in
          match fst (fst put) with
          | Raise e => (Raise e, snd (fst put), snd put)
          | Ok _ =>
              let later := processRecords_loop rest (snd (fst put)) streamName rV in
              (fst (fst later), snd (fst later), snd put ++ snd later)
          end
      end
  end.

Definition processRecords (records : list InputItem) (client : Client)
    (streamName : string)
  : result (list (list FirehoseRecord)) * Client * list Call :=
  processRecords_loop records client streamName [].

(** The handler returns nothing; the model keeps the calls it made. *)
Definition lambda_handler (event : Event) : result unit * list Call :=
  let region := region event in
  match stream_name (deliveryStreamArn event) with
  | Raise e => (Raise e, [])
  | Ok streamName =>
      let client := firehose_client region in
      let run := processRecords (records event) client streamName in
      (_ <- fst (fst run) ;; Ok tt, snd run)
  end.

End Pipeline.
End Pipeline.

(** * Properties *)

(** ** The retrying delivery *)

Module DeliveryFacts.
Import Py Transformer Delivery.

(** An entry of [RequestResponses] carries an error code: the key is there
    and its text is not empty. *)
Definition has_error (res : RequestResponse) : bool :=
  match ErrorCode res with
  | Some (String _ _) => true
  | _ => false
  end.

(** Following the specification's words: the records whose response carries
    a non-empty error code, in their original relative order. *)
Fixpoint failed_subset (records : list FirehoseRecord)
    (responses : list RequestResponse) : list FirehoseRecord :=
  match records, responses with
  | r :: records', res :: responses' =>
      if has_error res then r :: failed_subset records' responses'
      else failed_subset records' responses'
  | _, _ => []
  end.

(** The error codes of an answer, in order. *)
Fixpoint error_codes (responses : list RequestResponse) : list string :=
  match responses with
  | [] => []
  | res :: responses' =>
      match ErrorCode res with
      | Some (String c s) => String c s :: error_codes responses'
      | _ => error_codes responses'
      end
  end.

(** One round follows another: the records of the later call are the ones
    the earlier call left classified as failed, and there are some. *)
Definition follows (earlier later : Call) : Prop :=
  call_records later <> []
  /\ exists errMsg,
       classify (call_records earlier) (call_outcome earlier)
       = Ok (call_records later, errMsg).

Fixpoint chained (calls : list Call) : Prop :=
  match calls with
  | earlier :: (later :: _) as rest => follows earlier later /\ chained rest
  | _ => True
  end.

(** The client that fails every record of every call with one error code
    and counts its calls. *)
Definition failing_client (calls : nat) (streamName : string)
    (records : list FirehoseRecord) : PutOutcome * nat :=
  (Returned {| FailedPutCount := Z.of_nat (length records);
               RequestResponses :=
                 map (fun _ => {| ErrorCode := Some "ServiceUnavailable" |}) records |},
   S calls).

(** A client reports total failure: every call that submits records returns
    an answer that counts failures and holds one entry with an error code per
    submitted record. *)
Definition total_failure {Client : Type}
    (put_record_batch :
       Client -> string -> list FirehoseRecord -> PutOutcome * Client) : Prop :=
  forall client streamName records,
    records <> [] ->
    exists response,
      (put_record_batch client streamName records).1 = Returned response
      /\ 0 < FailedPutCount response
      /\ length (RequestResponses response) = length records
      /\ Forall (fun res => has_error res = true) (RequestResponses response).

(** The spec's scenario client: the first call fails every record, every
    later call fails the record ["B"] only. *)
Definition scenario_client (round : nat) (streamName : string)
    (records : list FirehoseRecord) : PutOutcome * nat :=
  let code (r : FirehoseRecord) :=
    match round with
    | O => Some "Throttled"
    | S _ => if String.eqb (Data r) "B" then Some "Throttled" else Some ""
    end in
  (Returned {| FailedPutCount := 1;
               RequestResponses := map (fun r => {| ErrorCode := code r |}) records |},
   S round).

(** A client whose every call raises. *)
Definition faulting_client (calls : nat) (streamName : string)
    (records : list FirehoseRecord) : PutOutcome * nat :=
  (Faulted "Connection reset", S calls).

(** A client that answers with zero failures and yet fills in error codes,
    one of them empty, for more entries than there are records. *)
Definition careless_client (calls : nat) (streamName : string)
    (records : list FirehoseRecord) : PutOutcome * nat :=
  (Returned {| FailedPutCount := 0;
               RequestResponses :=
                 [{| ErrorCode := Some "" |}; {| ErrorCode := None |};
                  {| ErrorCode := Some "Throttled" |}] |},
   S calls).

Lemma failed_subset_sublist records responses :
  sublist (failed_subset records responses) records.
Proof.
  revert responses.
  induction records as [|r records IH]; intros [|res responses]; simpl;
    try apply sublist_nil_l.
  destruct (has_error res).
  - by apply sublist_skip || apply sublist_cons.
  - by apply sublist_cons || apply sublist_skip.
Qed.

Lemma failed_subset_all records responses :
  length responses = length records ->
  Forall (fun res => has_error res = true) responses ->
  failed_subset records responses = records.
Proof.
  revert responses.
  induction records as [|r records IH]; intros [|res responses] Hlen Hall;
    simpl in *; try done.
  inversion Hall as [|? ? Hres Hrest]; subst.
  rewrite Hres. f_equal. apply IH; [lia | done].
Qed.

(** What the loop of lines 71-76 computes when it does not raise. *)
Lemma scan_spec records responses : forall idx codes failedRecords r,
  scan records idx responses codes failedRecords = Ok r ->
  r = (codes ++ error_codes responses,
       failedRecords ++ failed_subset (drop idx records) responses).
Proof.
  induction responses as [|res responses IH]; intros idx codes failedRecords r.
  - simpl. intros [= <-].
    destruct (drop idx records); simpl; by rewrite !app_nil_r.
  - cbn [scan error_codes]. unfold has_error.
    assert (Hskip : failed_subset (drop idx records) (res :: responses)
                    = (if has_error res
                       then match records !! idx with
                            | Some x => [x]
                            | None => []
                            end
                       else [])
                      ++ failed_subset (drop (S idx) records) responses).
    { destruct (records !! idx) as [x|] eqn:Hx.
      - rewrite (drop_S _ _ _ Hx). simpl. by destruct (has_error res).
      - apply lookup_ge_None in Hx.
        rewrite !drop_ge by lia. simpl. by destruct (has_error res). }
    rewrite Hskip. unfold has_error.
    destruct (ErrorCode res) as [[|c code]|].
    + intros H. by apply IH in H.
    + unfold index. destruct (records !! idx) as [x|]; simpl; [|done].
      intros H. apply IH in H. by rewrite H, <- !app_assoc.
    + intros H. by apply IH in H.
Qed.

(** With an entry that carries an error code for every record the loop ends
    normally. *)
Lemma scan_total records responses : forall idx codes failedRecords,
  (idx + length responses <= length records)%nat ->
  exists r, scan records idx responses codes failedRecords = Ok r.
Proof.
  induction responses as [|res responses IH]; intros idx codes failedRecords Hlen.
  - by eexists.
  - cbn [scan]. simpl in Hlen.
    destruct (ErrorCode res) as [[|c code]|]; try (apply IH; lia).
    unfold index.
    destruct (lookup_lt_is_Some_2 records idx) as [x ->]; [lia|].
    simpl. apply IH. lia.
Qed.

(** Entries without an error code leave both lists as they are. *)
Lemma scan_no_error records responses : forall idx codes failedRecords,
  Forall (fun res => ErrorCode res = None \/ ErrorCode res = Some "") responses ->
  scan records idx responses codes failedRecords = Ok (codes, failedRecords).
Proof.
  induction responses as [|res responses IH]; intros idx codes failedRecords Hall.
  - done.
  - inversion Hall as [|? ? [Hres|Hres] Hrest]; subst; cbn [scan];
      rewrite Hres; by apply IH.
Qed.

(** The records classified as failed after a call. *)
Lemma classify_spec records outcome failedRecords errMsg :
  classify records outcome = Ok (failedRecords, errMsg) ->
  match outcome with
  | Faulted msg => failedRecords = records /\ errMsg = msg
  | Returned response =>
      if 0 <? FailedPutCount response
      then failedRecords = failed_subset records (RequestResponses response)
           /\ errMsg = "Individual error codes: "
                       +:+ join "," (error_codes (RequestResponses response))
      else failedRecords = [] /\ errMsg = ""
  end.
Proof.
  unfold classify. destruct outcome as [response|msg].
  - simpl. destruct (0 <? FailedPutCount response).
    + destruct (scan records 0 (RequestResponses response) [] []) as [r|e] eqn:Hscan;
        simpl; [|done].
      apply scan_spec in Hscan. subst r. simpl. by intros [= <- <-].
    + by intros [= <- <-].
  - by intros [= <- <-].
Qed.

Lemma classify_sublist records outcome failedRecords errMsg :
  classify records outcome = Ok (failedRecords, errMsg) ->
  sublist failedRecords records.
Proof.
  intros H. apply classify_spec in H. destruct outcome as [response|msg].
  - destruct (0 <? FailedPutCount response); destruct H as [-> _].
    + apply failed_subset_sublist.
    + apply sublist_nil_l.
  - by destruct H as [-> _].
Qed.

Lemma classify_total_failure records response :
  0 < FailedPutCount response ->
  length (RequestResponses response) = length records ->
  Forall (fun res => has_error res = true) (RequestResponses response) ->
  classify records (Returned response)
  = Ok (records, "Individual error codes: "
                 +:+ join "," (error_codes (RequestResponses response))).
Proof.
  intros Hcount Hlen Hall. unfold classify. simpl.
  apply Z.ltb_lt in Hcount. rewrite Hcount.
  destruct (scan_total records (RequestResponses response) 0 [] []) as [r Hr];
    [lia|].
  rewrite Hr. apply scan_spec in Hr. subst r. simpl.
  by rewrite failed_subset_all.
Qed.

(** An answer without failures classifies no record as failed. *)
Lemma classify_no_failure records response :
  FailedPutCount response = 0
  \/ Forall (fun res => ErrorCode res = None \/ ErrorCode res = Some "")
        (RequestResponses response) ->
  exists errMsg, classify records (Returned response) = Ok ([], errMsg).
Proof.
  intros Hnone. unfold classify. simpl.
  destruct Hnone as [-> | Hnone]; [by eexists|].
  destruct (0 <? FailedPutCount response); [|by eexists].
  rewrite scan_no_error by done. by eexists.
Qed.

Section Run.

Context {Client : Type}.
Variable put_record_batch :
  Client -> string -> list FirehoseRecord -> PutOutcome * Client.

Local Abbreviation deliver :=
  (putRecordsToFirehoseStream Client put_record_batch) (only parsing).
Local Abbreviation call_of streamName records client :=
  {| call_stream := streamName; call_records := records;
     call_outcome := (put_record_batch client streamName records).1 |}
  (only parsing).

(** Induction along the retries: a property of a call follows from the
    property of the call it may recurse into. *)
Lemma deliver_ind
    (P : nat -> string -> list FirehoseRecord -> Client -> Z -> Z -> Prop) :
  (forall frames streamName records client attemptsMade maxAttempts,
     (forall frames' records' client',
        frames = S frames' -> attemptsMade + 1 < maxAttempts ->
        P frames' streamName records' client' (attemptsMade + 1) maxAttempts) ->
     P frames streamName records client attemptsMade maxAttempts) ->
  forall frames streamName records client attemptsMade maxAttempts,
    P frames streamName records client attemptsMade maxAttempts.
Proof.
  intros Hstep frames streamName.
  induction frames as [|frames IH];
    intros records client attemptsMade maxAttempts; apply Hstep.
  - by intros frames' records' client'.
  - intros frames' records' client' [= <-] _. apply IH.
Qed.

(** The five ways one call of the function ends. *)
Lemma deliver_cases frames streamName records client attemptsMade maxAttempts :
  let answer := put_record_batch client streamName records in
  let call := call_of streamName records client in
  let run := deliver frames streamName records client attemptsMade
               maxAttempts in
  match classify records answer.1 with
  | Raise e => run = (Raise e, answer.2, [call])
  | Ok (failedRecords, errMsg) =>
      match failedRecords with
      | [] => run = (Ok tt, answer.2, [call])
      | _ :: _ =>
          if decide (attemptsMade + 1 < maxAttempts) then
            match frames with
            | O => run = (Raise RecursionError, answer.2, [call])
            | S frames' =>
                let rest := deliver frames' streamName failedRecords answer.2
                              (attemptsMade + 1) maxAttempts in
                run = (rest.1.1, rest.1.2, call :: rest.2)
            end
          else
            run = (Raise (RuntimeError
                            ("Could not put records after "
                             +:+ str_of_int maxAttempts
                             +:+ " attempts. " +:+ errMsg)),
                   answer.2, [call])
      end
  end.
Proof.
  cbv zeta.
  destruct frames as [|frames']; cbn [putRecordsToFirehoseStream];
    (destruct (classify records _) as [[failedRecords errMsg]|e]; [|done]);
    (destruct failedRecords as [|r failedRecords]; simpl length;
     [ destruct (decide (0 < 0)%nat); [lia | done]
     | destruct (decide (0 < S _)%nat); [|lia]; by case_decide ]).
Qed.

(** Every run starts with a call that submits the records it was given. *)
Lemma deliver_first_call frames streamName records client attemptsMade
    maxAttempts :
  exists later,
    (deliver frames streamName records client attemptsMade maxAttempts).2
    = call_of streamName records client :: later.
Proof.
  pose proof (deliver_cases frames streamName records client attemptsMade
                maxAttempts) as Hrun. cbv zeta in Hrun.
  destruct (classify records _) as [[[|r failedRecords] errMsg]|e];
    try (rewrite Hrun; by eexists).
  case_decide; [destruct frames|]; rewrite Hrun; by eexists.
Qed.

Lemma deliver_chained :
  forall frames streamName records client attemptsMade maxAttempts,
    chained (deliver frames streamName records client attemptsMade
               maxAttempts).2.
Proof.
  apply (deliver_ind
    (fun frames streamName records client attemptsMade maxAttempts =>
       chained (deliver frames streamName records client attemptsMade
                  maxAttempts).2)).
  intros frames streamName records client attemptsMade maxAttempts IH.
  pose proof (deliver_cases frames streamName records client attemptsMade
                maxAttempts) as Hrun. cbv zeta in Hrun.
  destruct (classify records _) as [[[|r failedRecords] errMsg]|e] eqn:Hclass;
    try (by rewrite Hrun).
  case_decide as Hbudget; [|by rewrite Hrun].
  destruct frames as [|frames']; rewrite Hrun; [done|].
  cbn [snd].
  destruct (deliver_first_call frames' streamName (r :: failedRecords)
              (put_record_batch client streamName records).2
              (attemptsMade + 1) maxAttempts) as [later Hlater].
  specialize (IH frames' (r :: failedRecords)
                 (put_record_batch client streamName records).2
                 eq_refl Hbudget).
  rewrite Hlater in IH |- *. split; [|done].
  split; [done|]. by exists errMsg.
Qed.

Lemma chained_lookup calls : forall n earlier later,
  chained calls ->
  calls !! n = Some earlier -> calls !! S n = Some later ->
  follows earlier later.
Proof.
  induction calls as [|c calls IH]; intros n earlier later Hchain Hn HSn;
    [done|].
  destruct calls as [|c' calls]; [done|].
  destruct Hchain as [Hstep Hchain].
  destruct n as [|n].
  - simpl in Hn, HSn. injection Hn as ->. injection HSn as ->. exact Hstep.
  - exact (IH n earlier later Hchain Hn HSn).
Qed.

(** Under total failure every round submits the same records again until
    the budget is used up, as long as the recursion limit allows the
    retries; the client is called at least once. *)
Lemma total_failure_run :
  total_failure put_record_batch ->
  forall frames streamName records client attemptsMade maxAttempts,
    records <> [] ->
    maxAttempts - attemptsMade <= Z.of_nat (S frames) ->
    let run := deliver frames streamName records client attemptsMade
                 maxAttempts in
    Z.of_nat (length run.2) = Z.max 1 (maxAttempts - attemptsMade)
    /\ Forall (fun call => call_records call = records) run.2
    /\ exists response,
         call_outcome <$> last run.2 = Some (Returned response)
         /\ run.1.1
            = Raise (RuntimeError
                       ("Could not put records after "
                        +:+ str_of_int maxAttempts
                        +:+ " attempts. Individual error codes: "
                        +:+ join "," (error_codes (RequestResponses response)))).
Proof.
  intros Hfail.
  apply (deliver_ind
    (fun frames streamName records client attemptsMade maxAttempts =>
       records <> [] ->
       maxAttempts - attemptsMade <= Z.of_nat (S frames) ->
       let run := deliver frames streamName records client attemptsMade
                    maxAttempts in
       Z.of_nat (length run.2) = Z.max 1 (maxAttempts - attemptsMade)
       /\ Forall (fun call => call_records call = records) run.2
       /\ exists response,
            call_outcome <$> last run.2 = Some (Returned response)
            /\ run.1.1 = Raise (RuntimeError _))).
  intros frames streamName records client attemptsMade maxAttempts IH
    Hrecords Hlimit.
  pose proof (deliver_cases frames streamName records client attemptsMade
                maxAttempts) as Hrun. cbv zeta in Hrun |- *.
  destruct (Hfail client streamName records Hrecords)
    as (response & Hanswer & Hcount & Hlen & Hall).
  rewrite Hanswer in Hrun.
  rewrite (classify_total_failure _ _ Hcount Hlen Hall) in Hrun.
  destruct records as [|r records]; [done|].
  case_decide as Hbudget.
  - destruct frames as [|frames']; [lia|]. rewrite Hrun. cbn [fst snd].
    destruct (IH frames' (r :: records)
                (put_record_batch client streamName (r :: records)).2
                eq_refl Hbudget Hrecords ltac:(lia))
      as (Hcalls & Hsame & response' & Hlast & Hres).
    split; [simpl length; lia|]. split; [by constructor|].
    exists response'. split; [|done].
    destruct (deliver_first_call frames' streamName (r :: records)
                (put_record_batch client streamName (r :: records)).2
                (attemptsMade + 1) maxAttempts) as [later Hlater].
    rewrite Hlater in Hlast |- *. done.
  - rewrite Hrun. cbn [fst snd].
    split; [simpl; lia|]. split; [by repeat constructor|].
    by exists response.
Qed.

End Run.

(** C1.  A transport-level fault classifies every submitted record as
    failed; and in every run of the coordinator a retry round submits exactly
    the records the round before it classified as failed: they are the
    records whose response carried a non-empty error code, in their original
    relative order, so a sublist of the records of the round before (never
    more of them), and all of them again after a fault. *)
Theorem retry_round_resubmits_failed :
  (forall records msg, classify records (Faulted msg) = Ok (records, msg))
  /\ forall (Client : Type)
       (put_record_batch :
          Client -> string -> list FirehoseRecord -> PutOutcome * Client)
       frames streamName records client attemptsMade maxAttempts n round next,
       let run := putRecordsToFirehoseStream Client put_record_batch
                    frames streamName records client attemptsMade maxAttempts in
       run.2 !! n = Some round -> run.2 !! S n = Some next ->
       (exists errMsg,
          classify (call_records round) (call_outcome round)
          = Ok (call_records next, errMsg))
       /\ sublist (call_records next) (call_records round)
       /\ (length (call_records next) <= length (call_records round))%nat
       /\ match call_outcome round with
          | Returned response =>
              call_records next
              = failed_subset (call_records round) (RequestResponses response)
          | Faulted _ => call_records next = call_records round
          end.
Proof.
  split; [done|].
  intros Client put_record_batch frames streamName records client attemptsMade
    maxAttempts n round next run Hround Hnext.
  destruct (chained_lookup run.2 n round next) as [Hsome [errMsg Hclass]];
    [apply deliver_chained | done | done |].
  split; [by exists errMsg|].
  pose proof (classify_sublist _ _ _ _ Hclass) as Hsub.
  split; [done|]. split; [by apply sublist_length|].
  apply classify_spec in Hclass.
  destruct (call_outcome round) as [response|msg]; [|by destruct Hclass].
  destruct (0 <? FailedPutCount response); by destruct Hclass.
Qed.

(** The spec's scenario: all of A, B, C fail in round 1, only B in round 2;
    round 3 is called with B alone. *)
Lemma retry_round_resubmits_failed_witness :
  let A := {| Data := "A" |} in
  let B := {| Data := "B" |} in
  let C := {| Data := "C" |} in
  let run := putRecordsToFirehoseStream nat scenario_client 100
               "my-stream" [A; B; C] 0%nat 0 20 in
  call_records <$> run.2 !! 1%nat = Some [A; B; C]
  /\ call_records <$> run.2 !! 2%nat = Some [B]
  /\ sublist [B] [A; B; C].
Proof.
  cbv zeta.
  set (run := putRecordsToFirehoseStream nat scenario_client 100 "my-stream"
                [{| Data := "A" |}; {| Data := "B" |}; {| Data := "C" |}]
                0%nat 0 20).
  destruct (run.2 !! 1%nat) as [round|] eqn:Hround; [|by vm_compute in Hround].
  destruct (run.2 !! 2%nat) as [next|] eqn:Hnext; [|by vm_compute in Hnext].
  pose proof (proj2 retry_round_resubmits_failed nat scenario_client 100%nat
                "my-stream" _ 0%nat 0 20 1%nat round next Hround Hnext)
    as (_ & Hsub & _).
  assert (call_records round = [{| Data := "A" |}; {| Data := "B" |}; {| Data := "C" |}])
    as Hr by (vm_compute in Hround; injection Hround as <-; reflexivity).
  assert (call_records next = [{| Data := "B" |}])
    as Hn by (vm_compute in Hnext; injection Hnext as <-; reflexivity).
  rewrite Hr, Hn in Hsub. simpl. by rewrite Hr, Hn.
Defined.

Lemma failing_client_total_failure : total_failure failing_client.
Proof.
  intros client streamName records Hrecords. eexists.
  split; [reflexivity|]. simpl. split; [|split].
  - destruct records; [done | simpl; lia].
  - by rewrite length_map.
  - by apply Forall_map, Forall_true.
Qed.

(** Within a recursion limit that leaves five nested retries the same client
    is called six times; the retry after the sixth call raises
    [RecursionError], whatever the budget still allows. *)
Example total_failure_beyond_recursion_limit :
  let run := putRecordsToFirehoseStream nat failing_client 5
               "my-stream" [{| Data := "A" |}] 0%nat 0 20 in
  run.1 = (Raise RecursionError, 6%nat) /\ length run.2 = 6%nat.
Proof. vm_compute. split; reflexivity. Qed.

(** C2.  When the client reports total failure, a delivery of a
    non-empty batch started with [attemptsMade = 0] and a budget of one or
    more attempts, which the recursion limit allows, calls the client exactly
    [maxAttempts] times, each time with the whole batch, and then raises the
    error whose message holds the budget and the error codes of the last
    answer. *)
Theorem total_failure_exhausts_budget (Client : Type)
    (put_record_batch :
       Client -> string -> list FirehoseRecord -> PutOutcome * Client)
    frames streamName records client maxAttempts :
  total_failure put_record_batch ->
  records <> [] ->
  1 <= maxAttempts <= Z.of_nat (S frames) ->
  let run := putRecordsToFirehoseStream Client put_record_batch
               frames streamName records client 0 maxAttempts in
  Z.of_nat (length run.2) = maxAttempts
  /\ Forall (fun call => call_records call = records) run.2
  /\ exists response,
       call_outcome <$> last run.2 = Some (Returned response)
       /\ run.1.1
          = Raise (RuntimeError
                     ("Could not put records after " +:+ str_of_int maxAttempts
                      +:+ " attempts. Individual error codes: "
                      +:+ join "," (error_codes (RequestResponses response)))).
Proof.
  intros Hfail Hrecords Hbudget run.
  destruct (total_failure_run put_record_batch Hfail frames streamName records
              client 0 maxAttempts Hrecords ltac:(lia))
    as (Hcalls & Hsame & Hlast).
  fold run in Hcalls, Hsame, Hlast.
  repeat split; [lia | done | done].
Qed.

Lemma total_failure_exhausts_budget_witness :
  let A := {| Data := "A" |} in
  let B := {| Data := "B" |} in
  let run := putRecordsToFirehoseStream nat failing_client 100
               "my-stream" [A; B] 0%nat 0 20 in
  Z.of_nat (length run.2) = 20
  /\ run.1.2 = 20%nat
  /\ run.1.1
     = Raise (RuntimeError
                ("Could not put records after 20 attempts. "
                 +:+ "Individual error codes: "
                 +:+ "ServiceUnavailable,ServiceUnavailable")).
Proof.
  cbv zeta.
  destruct (total_failure_exhausts_budget nat failing_client 100%nat "my-stream"
              [{| Data := "A" |}; {| Data := "B" |}] 0%nat 20
              failing_client_total_failure ltac:(discriminate) ltac:(lia))
    as (Hcalls & _ & _).
  split; [exact Hcalls|]. split; vm_compute; reflexivity.
Defined.

(** C3.  When the answer of the batch call reports zero failures, or none
    of its entries carries an error code (the key is missing or its text is
    empty), the delivery returns normally after this one call.  With
    [FailedPutCount = 0] the entries are not looked at, whatever they hold. *)
Theorem no_failure_returns_after_one_call (Client : Type)
    (put_record_batch :
       Client -> string -> list FirehoseRecord -> PutOutcome * Client)
    frames streamName records client attemptsMade maxAttempts response
    client' :
  put_record_batch client streamName records = (Returned response, client') ->
  FailedPutCount response = 0
  \/ Forall (fun res => ErrorCode res = None \/ ErrorCode res = Some "")
        (RequestResponses response) ->
  putRecordsToFirehoseStream Client put_record_batch
    frames streamName records client attemptsMade maxAttempts
  = (Ok tt, client',
     [{| call_stream := streamName; call_records := records;
         call_outcome := Returned response |}]).
Proof.
  intros Hanswer Hnone.
  pose proof (deliver_cases put_record_batch frames streamName records client
                attemptsMade maxAttempts) as Hrun.
  cbv zeta in Hrun. rewrite Hanswer in Hrun. cbn [fst snd] in Hrun.
  destruct (classify_no_failure records response Hnone) as [errMsg Hclass].
  by rewrite Hclass in Hrun.
Qed.

Lemma no_failure_returns_after_one_call_witness :
  (putRecordsToFirehoseStream nat careless_client 100
     "my-stream" [{| Data := "A" |}] 0%nat 0 20).1
  = (Ok tt, 1%nat).
Proof.
  rewrite (no_failure_returns_after_one_call nat careless_client 100%nat
             "my-stream" [{| Data := "A" |}] 0%nat 0 20 _ 1%nat
             eq_refl (or_introl eq_refl)).
  reflexivity.
Defined.

End DeliveryFacts.

(** ** The logger configuration *)

Module LoggingFacts.
Import Py Logging.

(** A level name of [levels] in any mix of letter cases configures its
    level. *)
Lemma configure_recognized environ value name level :
  assoc "LOG_LEVEL" environ = Some value ->
  lower value = name ->
  assoc name levels = Some level ->
  configure environ = Ok level.
Proof.
  intros Henv <- Hlevel. unfold configure, getenv.
  by rewrite Henv, Hlevel.
Qed.

(** Without the variable the level is [INFO]. *)
Lemma configure_absent environ :
  assoc "LOG_LEVEL" environ = None -> configure environ = Ok INFO.
Proof. intros Henv. unfold configure, getenv. by rewrite Henv. Qed.

(** Any other text makes [levels.get] answer [None]; [setLevel] then raises
    [TypeError], which the [except KeyError] clause does not catch. *)
Lemma configure_unrecognized environ value :
  assoc "LOG_LEVEL" environ = Some value ->
  assoc (lower value) levels = None ->
  configure environ = Raise TypeError.
Proof.
  intros Henv Hlevel. unfold configure, getenv. by rewrite Henv, Hlevel.
Qed.

(** C5.  A recognised name configures its level, whatever the letter
    case, and a missing setting gives [INFO]; but an unrecognised text, such
    as "verbose", does not fall back to [INFO]: the configuration raises
    [TypeError]. *)
Theorem unrecognized_level_raises :
  (forall environ value level,
     assoc "LOG_LEVEL" environ = Some value ->
     assoc (lower value) levels = Some level ->
     configure environ = Ok level)
  /\ (forall environ,
        assoc "LOG_LEVEL" environ = None -> configure environ = Ok INFO)
  /\ (forall environ value,
        assoc "LOG_LEVEL" environ = Some value ->
        assoc (lower value) levels = None ->
        configure environ = Raise TypeError)
  /\ configure [("LOG_LEVEL", "DeBuG")] = Ok DEBUG
  /\ configure [("LOG_LEVEL", "WARN")] = Ok WARNING
  /\ configure [("LOG_LEVEL", "critical")] = Ok CRITICAL
  /\ configure [("LOG_LEVEL", "Error")] = Ok ERROR
  /\ configure [("LOG_LEVEL", "info")] = Ok INFO
  /\ configure [("PATH", "/usr/bin")] = Ok INFO
  /\ configure [("LOG_LEVEL", "verbose")] = Raise TypeError
  /\ configure [("LOG_LEVEL", "warning")] = Raise TypeError
  /\ configure [("LOG_LEVEL", "")] = Raise TypeError.
Proof.
  split; [|split; [|split]].
  - intros environ value level Henv Hlevel.
    by apply (configure_recognized environ value (lower value)).
  - apply configure_absent.
  - apply configure_unrecognized.
  - repeat split; reflexivity.
Qed.

End LoggingFacts.

(** ** The record transformer *)

Module TransformerFacts.
Import Py DateTime Transformer.

(** The event of the specification's scenario. *)
Definition scenario_event : value :=
  PDict [("timestamp", PInt 1609459200000); ("id", PStr "1");
         ("message", PStr "hello")].

(** An event one hundred and twenty-three milliseconds later. *)
Definition later_event : value :=
  PDict [("timestamp", PInt 1609459200123); ("id", PStr "2");
         ("message", PStr "hello again")].

Definition quote : string := String (ascii_of_N 34) "".

(** [json.dumps] on the dicts of the examples, whose values are short plain
    ASCII strings that need no escaping. *)
Definition dumps_text (d : list (string * value)) : string :=
  let item (kv : string * value) :=
    quote +:+ kv.1 +:+ quote +:+ ": "
    +:+ match kv.2 with
        | PStr s => quote +:+ s +:+ quote
        | PInt z => str_of_int z
        | PBool true => "true"
        | PBool false => "false"
        | _ => "null"
        end in
  "{" +:+ join ", " (map item d) +:+ "}".

(** Line 42 on an [int] timestamp, in a zone with a fixed offset. *)
Definition local_iso (offset millis : Z) : result string :=
  secs <- truediv (PInt millis) 1000%float ;;
  dt <- fromtimestamp (fun _ => offset) secs ;;
  Ok (isoformat dt).

(** The local rendering of the instant 2021-01-01T00:00:00 UTC in a zone
    that is [offset] seconds ahead of UTC, less than a day either way. *)
Definition new_year_2021 (offset : Z) : string :=
  let s := offset mod 86400 in
  (if offset <? 0 then "2020-12-31" else "2021-01-01")
  +:+ "T" +:+ digits 2 (s / 3600) +:+ ":" +:+ digits 2 (s mod 3600 / 60)
  +:+ ":" +:+ digits 2 (s mod 60).

Lemma length_append (s1 s2 : string) :
  String.length (s1 +:+ s2) = (String.length s1 + String.length s2)%nat.
Proof. induction s1 as [|c s1 IH]; simpl; [done | by rewrite IH]. Qed.

Lemma length_digits w : forall n, String.length (digits w n) = w.
Proof.
  induction w as [|w IH]; intros n; simpl; [done|].
  rewrite length_append, IH. simpl. lia.
Qed.

(** The text of [isoformat]: nineteen characters, and seven more for the
    microseconds when there are any. *)
Lemma length_isoformat dt :
  String.length (isoformat dt)
  = if microsecond dt =? 0 then 19%nat else 26%nat.
Proof.
  unfold isoformat.
  destruct (microsecond dt =? 0); rewrite !length_append, !length_digits;
    reflexivity.
Qed.

(** The renderings of the interpreter in UTC, among them two instants whose
    float quotient is off by a microsecond and the two ends of the range. *)
Example local_iso_utc :
  map (local_iso 0)
    [0; -1; 1500; 951782400000; 1709210096789; 4102444800500; -86400001;
     10000000000001; 253402300799999; 253402300800000;
     -62135510400000; -62135596800000]
  = [Ok "1970-01-01T00:00:00"; Ok "1969-12-31T23:59:59.999000";
     Ok "1970-01-01T00:00:01.500000"; Ok "2000-02-29T00:00:00";
     Ok "2024-02-29T12:34:56.789000"; Ok "2100-01-01T00:00:00.500000";
     Ok "1969-12-30T23:59:59.999000";
     Ok "2286-11-20T17:46:40.000999"; Ok "9999-12-31T23:59:59.998993";
     Raise ValueError;
     Ok "0001-01-02T00:00:00"; Raise ValueError].
Proof. vm_compute. reflexivity. Qed.

(** The scenario's instant in New York and in Kolkata. *)
Example local_iso_zones :
  local_iso (-18000) 1609459200000 = Ok "2020-12-31T19:00:00"
  /\ local_iso 19800 1609459200000 = Ok "2021-01-01T05:30:00".
Proof. split; vm_compute; reflexivity. Qed.

Section Facts.

Variable utcoffset : Z -> Z.

Lemma fromtimestamp_valid d dt :
  fromtimestamp utcoffset d = Ok dt -> valid dt = true.
Proof.
  unfold fromtimestamp.
  destruct (timeval_of_double d) as [[timet us]|]; cbn [bind]; [|done].
  destruct (platform_localtime _ timet) as [t|]; cbn [bind]; [|done].
  destruct (check_year _); cbn [bind]; [|done].
  destruct (platform_localtime _ _) as [probe|]; cbn [bind]; [|done].
  destruct (check_year _); cbn [bind]; [|done].
  unfold new_datetime. destruct (valid _) eqn:Hvalid; [|done].
  by intros [= <-].
Qed.

(** The platform accepts every instant whose local year is one of the
    [datetime] type. *)
Lemma platform_localtime_in_range t :
  1 <= tm_year (localtime utcoffset t) <= 9999 ->
  platform_localtime utcoffset t = Ok (localtime utcoffset t).
Proof.
  intros Hyear. unfold platform_localtime.
  rewrite (proj2 (Z.leb_le _ _)), (proj2 (Z.ltb_lt _ _)) by lia.
  reflexivity.
Qed.

(** The dict that [transformLogEvent] returns. *)
Lemma transformLogEvent_spec logEvent owner logGroup logStream rV :
  transformLogEvent utcoffset logEvent owner logGroup logStream = Ok rV ->
  exists ts secs dt id message,
    getitem logEvent "timestamp" = Ok ts
    /\ truediv ts 1000%float = Ok secs
    /\ fromtimestamp utcoffset secs = Ok dt
    /\ getitem logEvent "id" = Ok id
    /\ getitem logEvent "message" = Ok message
    /\ rV = [("timestamp", PStr (isoformat dt)); ("id", id);
             ("type", PStr "CloudWatchLogs"); ("@message", message);
             ("@owner", owner); ("@log_group", logGroup);
             ("@log_stream", logStream)].
Proof.
  unfold transformLogEvent.
  destruct (getitem logEvent "timestamp") as [ts|] eqn:Hts; simpl; [|done].
  destruct (truediv ts 1000%float) as [secs|] eqn:Hsecs; simpl; [|done].
  destruct (fromtimestamp utcoffset secs) as [dt|] eqn:Hdt; simpl; [|done].
  destruct (getitem logEvent "id") as [id|] eqn:Hid; simpl; [|done].
  destruct (getitem logEvent "message") as [message|] eqn:Hmsg; simpl; [|done].
  intros [= <-]. exists ts, secs, dt, id, message.
  repeat split; done.
Qed.

Lemma append_empty_r (s : string) : s +:+ "" = s.
Proof.
  induction s as [|c s IH]; [done|].
  change (String c (s +:+ "") = String c s). by rewrite IH.
Qed.

Lemma scenario_seconds :
  truediv (PInt 1609459200000) 1000%float = Ok 1609459200%float
  /\ timeval_of_double 1609459200%float = Ok (1609459200, 0).
Proof. split; vm_compute; reflexivity. Qed.

(** The calendar time a bounded offset away from 2021-01-01T00:00:00 UTC. *)
Lemma gmtime_new_year_2021 offset :
  -86400 < offset < 86400 ->
  gmtime (1609459200 + offset)
  = {| tm_year := if offset <? 0 then 2020 else 2021;
       tm_mon := if offset <? 0 then 12 else 1;
       tm_mday := if offset <? 0 then 31 else 1;
       tm_hour := offset mod 86400 / 3600;
       tm_min := offset mod 86400 mod 3600 / 60;
       tm_sec := offset mod 86400 mod 60 |}.
Proof.
  intros Hoffset. unfold gmtime.
  replace ((1609459200 + offset) mod 86400) with (offset mod 86400)
    by (Z.div_mod_to_equations; lia).
  replace ((1609459200 + offset) / 86400) with (18628 + offset / 86400)
    by (Z.div_mod_to_equations; lia).
  destruct (offset <? 0) eqn:Hneg.
  - apply Z.ltb_lt in Hneg.
    replace (offset / 86400) with (-1)
      by (apply (Z.div_unique offset 86400 (-1) (offset + 86400)); lia).
    reflexivity.
  - apply Z.ltb_ge in Hneg. rewrite Z.div_small by lia. reflexivity.
Qed.

(** A day earlier the year is still 2020. *)
Lemma gmtime_eve_2021 offset :
  -86400 < offset < 86400 ->
  tm_year (gmtime (1609459200 - 86400 + offset)) = 2020.
Proof.
  intros Hoffset. unfold gmtime.
  replace ((1609459200 - 86400 + offset) / 86400) with (18627 + offset / 86400)
    by (Z.div_mod_to_equations; lia).
  destruct (Z.ltb_spec offset 0).
  - replace (offset / 86400) with (-1)
      by (apply (Z.div_unique offset 86400 (-1) (offset + 86400)); lia).
    reflexivity.
  - rewrite Z.div_small by lia. reflexivity.
Qed.

Lemma check_year_in_range y : 1 <= y <= 9999 -> check_year y = Ok tt.
Proof.
  intros Hy. unfold check_year, year_in_range, MINYEAR, MAXYEAR.
  by rewrite (proj2 (Z.leb_le 1 y)), (proj2 (Z.leb_le y 9999)) by lia.
Qed.

Lemma fromtimestamp_new_year_2021 :
  (forall t, -86400 < utcoffset t < 86400) ->
  exists dt,
    fromtimestamp utcoffset 1609459200%float = Ok dt
    /\ isoformat dt = new_year_2021 (utcoffset 1609459200).
Proof.
  intros Hzone. unfold fromtimestamp.
  rewrite (proj2 scenario_seconds). cbn [bind].
  rewrite (platform_localtime_in_range 1609459200); cycle 1.
  { unfold localtime. rewrite (gmtime_new_year_2021 _ (Hzone _)).
    cbn [tm_year]. destruct (_ <? 0); lia. }
  rewrite (platform_localtime_in_range (1609459200 - 86400)); cycle 1.
  { unfold localtime. rewrite (gmtime_eve_2021 _ (Hzone _)). lia. }
  cbn [bind]. unfold localtime.
  rewrite (gmtime_eve_2021 _ (Hzone _)).
  rewrite (gmtime_new_year_2021 _ (Hzone _)).
  cbn [tm_year tm_mon tm_mday tm_hour tm_min tm_sec].
  unfold new_year_2021.
  pose proof (Hzone 1609459200) as Hoffset.
  generalize dependent (utcoffset 1609459200). intros offset Hoffset.
  assert (0 <= offset mod 86400 < 86400) as Hs by (apply Z.mod_pos_bound; lia).
  generalize dependent (offset mod 86400). intros s Hs.
  rewrite Z.min_r by (Z.div_mod_to_equations; lia).
  rewrite !check_year_in_range by (destruct (offset <? 0); lia).
  cbn [bind]. unfold new_datetime.
  match goal with |- context [valid ?d] => assert (valid d = true) as -> end.
  { unfold valid, year_in_range, MINYEAR, MAXYEAR.
    cbn [year month day hour minute second microsecond].
    destruct (offset <? 0);
      repeat (apply andb_true_intro; split); try reflexivity;
      apply Z.leb_le; Z.div_mod_to_equations; lia. }
  eexists. split; [reflexivity|].
  unfold isoformat.
  cbn [year month day hour minute second microsecond].
  change (0 =? 0) with true. cbv iota. rewrite append_empty_r.
  by destruct (offset <? 0).
Qed.

End Facts.

(** C6, as the code has it.  In a time zone whose offset stays within a day
    of UTC the scenario event becomes the dict with the keys [timestamp],
    [id], [type], [@message], [@owner], [@log_group] and [@log_stream], in
    this order; the timestamp is the local rendering of 2021-01-01T00:00:00
    UTC.  For every event the values of [id] and [message] are carried over
    as they are. *)
Theorem scenario_record :
  (forall utcoffset,
     (forall t, -86400 < utcoffset t < 86400) ->
     transformLogEvent utcoffset scenario_event
       (PStr "acct1") (PStr "/app/log") (PStr "stream1")
     = Ok [("timestamp", PStr (new_year_2021 (utcoffset 1609459200)));
           ("id", PStr "1"); ("type", PStr "CloudWatchLogs");
           ("@message", PStr "hello"); ("@owner", PStr "acct1");
           ("@log_group", PStr "/app/log"); ("@log_stream", PStr "stream1")])
  /\ (forall utcoffset logEvent owner logGroup logStream rV,
        transformLogEvent utcoffset logEvent owner logGroup logStream = Ok rV ->
        Ok <$> assoc "id" rV = Some (getitem logEvent "id")
        /\ Ok <$> assoc "@message" rV = Some (getitem logEvent "message")
        /\ assoc "type" rV = Some (PStr "CloudWatchLogs")
        /\ assoc "@owner" rV = Some owner
        /\ assoc "@log_group" rV = Some logGroup
        /\ assoc "@log_stream" rV = Some logStream
        /\ map fst rV = ["timestamp"; "id"; "type"; "@message"; "@owner";
                         "@log_group"; "@log_stream"]).
Proof.
  split.
  - intros utcoffset Hzone. unfold transformLogEvent, scenario_event.
    cbn [getitem assoc String.eqb Ascii.eqb Bool.eqb bind].
    rewrite (proj1 scenario_seconds). cbn [bind].
    destruct (fromtimestamp_new_year_2021 utcoffset Hzone) as (dt & -> & <-).
    reflexivity.
  - intros utcoffset logEvent owner logGroup logStream rV HrV.
    apply transformLogEvent_spec in HrV
      as (ts & secs & dt & id & message & _ & _ & _ & -> & -> & ->).
    repeat split; reflexivity.
Qed.

(** In New York the instant falls on the evening before. *)
Lemma scenario_record_witness :
  transformLogEvent (fun _ => -18000) scenario_event
    (PStr "acct1") (PStr "/app/log") (PStr "stream1")
  = Ok [("timestamp", PStr "2020-12-31T19:00:00");
        ("id", PStr "1"); ("type", PStr "CloudWatchLogs");
        ("@message", PStr "hello"); ("@owner", PStr "acct1");
        ("@log_group", PStr "/app/log"); ("@log_stream", PStr "stream1")].
Proof.
  rewrite (proj1 scenario_record (fun _ => -18000)); [reflexivity|].
  intros _. lia.
Defined.

(** C6 as stated fails on the field names: in UTC the record is as below,
    with no key [message], [owner], [log_group] or [log_stream]. *)
Lemma scenario_record_keys :
  let rV := transformLogEvent (fun _ => 0) scenario_event
              (PStr "acct1") (PStr "/app/log") (PStr "stream1") in
  rV = Ok [("timestamp", PStr "2021-01-01T00:00:00");
           ("id", PStr "1"); ("type", PStr "CloudWatchLogs");
           ("@message", PStr "hello"); ("@owner", PStr "acct1");
           ("@log_group", PStr "/app/log"); ("@log_stream", PStr "stream1")]
  /\ (d <- rV ;; Ok (assoc "message" d)) = Ok None
  /\ (d <- rV ;; Ok (assoc "owner" d)) = Ok None
  /\ (d <- rV ;; Ok (assoc "log_group" d)) = Ok None
  /\ (d <- rV ;; Ok (assoc "log_stream" d)) = Ok None.
Proof. vm_compute. repeat split; reflexivity. Qed.

(** What the platform's [localtime_r] returns is the local calendar time. *)
Lemma platform_localtime_ok utcoffset t broken :
  platform_localtime utcoffset t = Ok broken -> broken = localtime utcoffset t.
Proof.
  unfold platform_localtime. destruct (_ && _); [|done]. by intros [= <-].
Qed.

(** The timestamps that the platform or the [datetime] type reject: the
    seconds do not fit the 64-bit [time_t], the year does not fit a C [int],
    or the year is past 9999. *)
Example local_iso_out_of_range :
  map (local_iso 0)
    [10 ^ 22; - 10 ^ 22; 10 ^ 20; - 10 ^ 20; 67768036192676800000;
     67768036190676800000; 10 ^ 19]
  = [Raise OverflowError; Raise OverflowError; Raise OSError; Raise OSError;
     Raise OSError; Raise ValueError; Raise ValueError].
Proof. vm_compute. reflexivity. Qed.

(** The fields of a [datetime] that [fromtimestamp] returns. *)
Lemma fromtimestamp_fields utcoffset d dt :
  fromtimestamp utcoffset d = Ok dt ->
  exists timet us,
    timeval_of_double d = Ok (timet, us)
    /\ (let t := localtime utcoffset timet in
        year dt = tm_year t /\ month dt = tm_mon t /\ day dt = tm_mday t
        /\ hour dt = tm_hour t /\ minute dt = tm_min t
        /\ second dt = Z.min 59 (tm_sec t))
    /\ microsecond dt = us.
Proof.
  unfold fromtimestamp.
  destruct (timeval_of_double d) as [[timet us]|]; [|done]. cbn [bind].
  destruct (platform_localtime _ timet) as [t|] eqn:Ht; [|done]. cbn [bind].
  apply platform_localtime_ok in Ht as ->.
  destruct (check_year _); [|done]. cbn [bind].
  destruct (platform_localtime _ _) as [probe|]; [|done]. cbn [bind].
  destruct (check_year _); [|done]. cbn [bind].
  unfold new_datetime. destruct (valid _); [|done].
  intros [= <-]. exists timet, us. repeat split; reflexivity.
Qed.

(** C7, as the code has it.  For an event with an [int] timestamp that
    [transformLogEvent] accepts, the timestamp of the record is the ISO-8601
    text of the local calendar time of the float quotient [timestamp/1000.0],
    split into whole seconds and microseconds: nineteen characters
    [YYYY-MM-DDTHH:MM:SS] when the microseconds are zero, and the same
    followed by a point and six digits otherwise. *)
Theorem timestamp_is_local_iso_text utcoffset logEvent owner logGroup logStream
    millis rV :
  getitem logEvent "timestamp" = Ok (PInt millis) ->
  transformLogEvent utcoffset logEvent owner logGroup logStream = Ok rV ->
  exists f timet us dt,
    float_of_int millis = Ok f
    /\ timeval_of_double (PrimFloat.div f 1000%float) = Ok (timet, us)
    /\ fromtimestamp utcoffset (PrimFloat.div f 1000%float) = Ok dt
    /\ valid dt = true
    /\ (let t := localtime utcoffset timet in
        year dt = tm_year t /\ month dt = tm_mon t /\ day dt = tm_mday t
        /\ hour dt = tm_hour t /\ minute dt = tm_min t
        /\ second dt = Z.min 59 (tm_sec t))
    /\ microsecond dt = us
    /\ assoc "timestamp" rV = Some (PStr (isoformat dt))
    /\ String.length (isoformat dt) = if us =? 0 then 19%nat else 26%nat.
Proof.
  intros Hts HrV.
  apply transformLogEvent_spec in HrV
    as (ts & secs & dt & id & message & Hts' & Hsecs & Hdt & _ & _ & ->).
  rewrite Hts in Hts'. injection Hts' as <-.
  unfold truediv in Hsecs.
  destruct (float_of_int millis) as [f|] eqn:Hf; [|done].
  cbn [bind] in Hsecs. injection Hsecs as <-.
  destruct (fromtimestamp_fields _ _ _ Hdt) as (timet & us & Htv & Hfields & Hus).
  exists f, timet, us, dt.
  split; [done|]. split; [done|]. split; [done|].
  split; [by apply (fromtimestamp_valid utcoffset (PrimFloat.div f 1000%float))|].
  split; [done|]. split; [done|]. split; [done|].
  rewrite <- Hus. apply length_isoformat.
Qed.

Lemma timestamp_is_local_iso_text_witness :
  exists f timet us dt,
    float_of_int 1609459200123 = Ok f
    /\ timeval_of_double (PrimFloat.div f 1000%float) = Ok (timet, us)
    /\ fromtimestamp (fun _ => 0) (PrimFloat.div f 1000%float) = Ok dt
    /\ valid dt = true
    /\ (let t := localtime (fun _ => 0) timet in
        year dt = tm_year t /\ month dt = tm_mon t /\ day dt = tm_mday t
        /\ hour dt = tm_hour t /\ minute dt = tm_min t
        /\ second dt = Z.min 59 (tm_sec t))
    /\ microsecond dt = us
    /\ assoc "timestamp"
         [("timestamp", PStr "2021-01-01T00:00:00.123000"); ("id", PStr "2");
          ("type", PStr "CloudWatchLogs"); ("@message", PStr "hello again");
          ("@owner", PStr "acct1"); ("@log_group", PStr "/app/log");
          ("@log_stream", PStr "stream1")]
       = Some (PStr (isoformat dt))
    /\ String.length (isoformat dt) = if us =? 0 then 19%nat else 26%nat.
Proof.
  apply (timestamp_is_local_iso_text (fun _ => 0) later_event
           (PStr "acct1") (PStr "/app/log") (PStr "stream1") 1609459200123).
  - reflexivity.
  - vm_compute. reflexivity.
Defined.

(** C7 as stated fails one hundred and twenty-three milliseconds after the
    scenario's instant: the text has microseconds, twenty-six characters in
    all. *)
Lemma later_event_has_microseconds :
  let rV := transformLogEvent (fun _ => 0) later_event
              (PStr "acct1") (PStr "/app/log") (PStr "stream1") in
  (d <- rV ;; Ok (assoc "timestamp" d))
  = Ok (Some (PStr "2021-01-01T00:00:00.123000"))
  /\ String.length "2021-01-01T00:00:00.123000" = 26%nat.
Proof. vm_compute. split; reflexivity. Qed.

End TransformerFacts.

(** ** The pipeline *)

Module PipelineFacts.
Import Py Transformer Delivery Pipeline.

(** The separator occurs in the text. *)
Fixpoint has_sep (sep : ascii) (s : string) : bool :=
  match s with
  | EmptyString => false
  | String c s' => Ascii.eqb c sep || has_sep sep s'
  end.

(** Three payloads as CloudWatch Logs sends them, each with the base64 text
    of its gzip-compressed JSON and the value [json.loads] gives for it, and a
    text that is valid base64 but not gzip data. *)
Definition data_text : string :=
  "H4sIAAAAAAACAy2OwQrCMBBEf6XsWWgrKtRbwdqTp/YmRWJdayBNQrJVpPTfzcbuaXgzw84MI3ovBmy/FuGYwKlsy9ulapqyrmCTgPlodGyIvqeciTJD7cxkGabC2jSAlTfkUIxs+Khi3k933ztpSRp9lorQ+ZC4whO6f6t6o6bIZpAPbsceyTCNxMiP8kNW7PbFNuML3jqasy9UysDSLT/ceXFnywAAAA==".

Definition data_payload : value :=
  PDict [("messageType", PStr "DATA_MESSAGE"); ("owner", PStr "acct1");
         ("logGroup", PStr "/app/log"); ("logStream", PStr "stream1");
         ("subscriptionFilters", PList [PStr "f"]);
         ("logEvents",
          PList [PDict [("id", PStr "1"); ("timestamp", PInt 1609459200000);
                        ("message", PStr "hello")]])].

Definition control_text : string :=
  "H4sIAAAAAAACAzWOwQqCQBCGX2XYc4RFBXoLUS+WkEKHkNh0cpd0V3bXJMR3zzWb2/zfzM83kAa1phVmnxaJB8RPztklie+nIE2PUUBWQGQvUM2sll3ZU1OwWFbaolpWkZJda+myp0Yhbf6B7h66ULw1XIqQ1waVntAt/90GbxRmDgbCy/+P4ZOToY1t3Rwcd7d3t46diS22s801hsUWFlsPfIbFi4sKGNLaMJBPKKcyLqg1gJArZFLjmoz5+AUu1P/l/AAAAA==".

Definition control_payload : value :=
  PDict [("messageType", PStr "CONTROL_MESSAGE"); ("owner", PStr "CloudwatchLogs");
         ("logGroup", PStr ""); ("logStream", PStr "");
         ("subscriptionFilters", PList []);
         ("logEvents",
          PList [PDict [("id", PStr ""); ("timestamp", PInt 1609459200000);
                        ("message",
                         PStr "CWL CONTROL MESSAGE: Checking health of destination Firehose.")]])].

Definition empty_text : string :=
  "H4sIAAAAAAACA6tWyk0tLk5MTw2pLEhVslJQcnEMcYz3dQ0OdnR3VdJRUMovz0stAkkkJieXGIJEcvLT3YvySwtAgvqJBQX6QAGoeHBJUWpiLkiiGMyCqXctS80rKQaKR8fWAgDb2JmJcgAAAA==".

Definition empty_payload : value :=
  PDict [("messageType", PStr "DATA_MESSAGE"); ("owner", PStr "acct1");
         ("logGroup", PStr "/app/log"); ("logStream", PStr "stream1");
         ("logEvents", PList [])].

Definition not_gzip_text : string := "bm90IGd6aXA=".

(** Lines 92-95 on the four texts above. *)
Definition sample_decode (text : string) : result value :=
  if String.eqb text data_text then Ok data_payload
  else if String.eqb text control_text then Ok control_payload
  else if String.eqb text empty_text then Ok empty_payload
  else Raise DecodeError.

(** A client that accepts every record and counts its calls. *)
Definition accepting_client (calls : nat) (streamName : string)
    (records : list FirehoseRecord) : PutOutcome * nat :=
  (Returned {| FailedPutCount := 0;
               RequestResponses := map (fun _ => {| ErrorCode := None |}) records |},
   S calls).

Section Facts.

Variable utcoffset : Z -> Z.
Variable dumps : list (string * value) -> string.
Variable decode : string -> result value.
Variable Client : Type.
Variable put_record_batch :
  Client -> string -> list FirehoseRecord -> PutOutcome * Client.
Variable frames : nat.
Variable firehose_client : string -> Client.

Local Abbreviation deliver :=
  (putRecordsToFirehoseStream Client put_record_batch) (only parsing).
Local Abbreviation records_of :=
  (firehoseRecords_of utcoffset dumps decode) (only parsing).
Local Abbreviation loop :=
  (processRecords_loop utcoffset dumps decode Client put_record_batch frames)
  (only parsing).
Local Abbreviation process :=
  (processRecords utcoffset dumps decode Client put_record_batch frames)
  (only parsing).

(** An item fails to decode: the libraries raise on its text, or the payload
    has no [messageType], or it is a data message and lacks one of the four
    fields read next ([field] is the first one missing). *)
Inductive decode_error (r : InputItem) : exn -> Prop :=
| undecodable e :
    decode (data r) = Raise e -> decode_error r e
| no_message_type payload e :
    decode (data r) = Ok payload ->
    getitem payload "messageType" = Raise e ->
    decode_error r e
| missing_field kvs field :
    decode (data r) = Ok (PDict kvs) ->
    assoc "messageType" kvs = Some (PStr "DATA_MESSAGE") ->
    find (fun name => negb (bool_decide (is_Some (assoc name kvs))))
         ["logEvents"; "owner"; "logGroup"; "logStream"] = Some field ->
    decode_error r (KeyError field).

Lemma decode_error_raises r e :
  decode_error r e -> records_of r = Raise e.
Proof.
  intros [e' Hdecode | payload e' Hdecode Htype | kvs field Hdecode Htype Hfind];
    unfold firehoseRecords_of; rewrite Hdecode; cbn [bind].
  - done.
  - by rewrite Htype.
  - unfold getitem. rewrite Htype. cbn [bind eq_str].
    change ("DATA_MESSAGE" =? "DATA_MESSAGE")%string with true. cbv iota.
    cbn [find] in Hfind.
    repeat match type of Hfind with
    | context [assoc ?name kvs] =>
        destruct (assoc name kvs) eqn:?; cbn in Hfind; cbn [bind]
    end; by simplify_eq.
Qed.

(** The loop over a concatenation: the second part runs after the first,
    unless the first raised. *)
Lemma processRecords_loop_app pre post : forall client streamName rV,
  loop (pre ++ post) client streamName rV
  = let before := loop pre client streamName rV in
    match before.1.1 with
    | Ok rV' =>
        let later := loop post before.1.2 streamName rV' in
        (later.1.1, later.1.2, before.2 ++ later.2)
    | Raise e => before
    end.
Proof.
  induction pre as [|r pre IH]; intros client streamName rV.
  - cbn. by destruct (loop post client streamName rV) as [[? ?] ?].
  - cbn [app processRecords_loop].
    destruct (records_of r) as [[firehoseRecords|]|e]; [| by apply IH | done].
    destruct (deliver frames streamName firehoseRecords client 0 20)
      as [[[[]|e] client'] calls]; cbn [fst snd]; [|done].
    rewrite IH. cbv zeta.
    destruct (loop pre client' streamName (rV ++ [firehoseRecords]))
      as [[[rV'|e] client''] calls']; cbn [fst snd]; [|done].
    by rewrite app_assoc.
Qed.

(** Every call of a delivery names the stream it was given. *)
Lemma deliver_stream :
  forall depth streamName records client attemptsMade maxAttempts,
    Forall (fun call => call_stream call = streamName)
      (deliver depth streamName records client attemptsMade maxAttempts).2.
Proof.
  apply (DeliveryFacts.deliver_ind
    (fun depth streamName records client attemptsMade maxAttempts =>
       Forall (fun call => call_stream call = streamName)
         (deliver depth streamName records client attemptsMade maxAttempts).2)).
  intros depth streamName records client attemptsMade maxAttempts IH.
  pose proof (DeliveryFacts.deliver_cases put_record_batch depth streamName
                records client attemptsMade maxAttempts) as Hrun.
  cbv zeta in Hrun.
  destruct (classify records _) as [[[|r failedRecords] errMsg]|e];
    try (rewrite Hrun; by repeat constructor).
  case_decide as Hbudget; [|rewrite Hrun; by repeat constructor].
  destruct depth as [|depth']; rewrite Hrun; [by repeat constructor|].
  constructor; [done|]. by apply IH.
Qed.

Lemma processRecords_loop_stream records : forall client streamName rV,
  Forall (fun call => call_stream call = streamName)
    (loop records client streamName rV).2.
Proof.
  induction records as [|r records IH]; intros client streamName rV.
  - constructor.
  - cbn [processRecords_loop].
    destruct (records_of r) as [[firehoseRecords|]|e];
      [| by apply IH | constructor].
    pose proof (deliver_stream frames streamName firehoseRecords client 0 20)
      as Hput.
    destruct (deliver frames streamName firehoseRecords client 0 20)
      as [[[[]|e] client'] calls]; cbn [fst snd] in *; [|done].
    apply Forall_app. split; [done | by apply IH].
Qed.

(** Delivering no records takes one call, whatever the client answers; the
    call can only end normally or on the index of a stray error code. *)
Lemma deliver_nothing streamName client attemptsMade maxAttempts :
  let answer := put_record_batch client streamName [] in
  let run := deliver frames streamName [] client attemptsMade maxAttempts in
  run.2 = [{| call_stream := streamName; call_records := [];
              call_outcome := answer.1 |}]
  /\ run.1.2 = answer.2
  /\ (run.1.1 = Ok tt \/ run.1.1 = Raise IndexError)
  /\ forall response,
       answer.1 = Returned response -> FailedPutCount response = 0 ->
       run.1.1 = Ok tt.
Proof.
  cbv zeta.
  pose proof (DeliveryFacts.deliver_cases put_record_batch frames streamName []
                client attemptsMade maxAttempts) as Hrun.
  cbv zeta in Hrun.
  destruct (classify [] _) as [[failedRecords errMsg]|e] eqn:Hclass.
  - apply DeliveryFacts.classify_sublist, sublist_nil_r in Hclass as ->.
    rewrite Hrun. auto.
  - rewrite Hrun. cbn [fst snd]. repeat split.
    + right. f_equal. unfold classify in Hclass.
      destruct (put_record_batch client streamName []).1 as [response|msg];
        [|done].
      cbn in Hclass. destruct (0 <? FailedPutCount response); [|done].
      clear Hrun.
      assert (forall responses idx codes r,
                scan [] idx responses codes [] = Raise r -> r = IndexError)
        as Hscan.
      { induction responses as [|res responses IH]; intros idx codes r';
          cbn [scan]; [done|].
        destruct (ErrorCode res) as [[|c code]|]; try apply IH.
        unfold index. rewrite lookup_nil. simpl. congruence. }
      destruct (scan [] 0 (RequestResponses response) [] []) as [?|e'] eqn:Hs;
        [done|].
      cbn [bind] in Hclass. injection Hclass as <-. by apply Hscan in Hs.
    + intros response Hanswer Hcount. rewrite Hanswer in Hclass.
      destruct (DeliveryFacts.classify_no_failure [] response (or_introl Hcount))
        as [errMsg Hok].
      congruence.
Qed.

End Facts.

Lemma split_no_sep sep s : has_sep sep s = false -> split sep s = [s].
Proof.
  induction s as [|c s IH]; cbn [has_sep split]; [done|].
  intros [Hc Hs]%orb_false_elim. rewrite Hc, (IH Hs). done.
Qed.

Lemma split_sep sep pre rest :
  has_sep sep pre = false ->
  split sep (pre +:+ String sep rest) = pre :: split sep rest.
Proof.
  induction pre as [|c pre IH]; cbn [has_sep].
  - intros _. change ("" +:+ String sep rest) with (String sep rest).
    cbn [split]. by rewrite Ascii.eqb_refl.
  - intros [Hc Hpre]%orb_false_elim.
    change (String c pre +:+ String sep rest)
      with (String c (pre +:+ String sep rest)).
    cbn [split]. by rewrite Hc, (IH Hpre).
Qed.

Lemma split_two sep s :
  has_sep sep s = true -> exists a b l, split sep s = a :: b :: l.
Proof.
  induction s as [|c s IH]; cbn [has_sep split]; [done|].
  destruct (Ascii.eqb c sep); cbn [orb].
  - intros _. destruct (split sep s) as [|b l] eqn:Hs; [|by eauto].
    destruct s; cbn [split] in Hs; [done|].
    destruct (Ascii.eqb _ sep); [done|]. by destruct (split sep s).
  - intros Hs. destruct (IH Hs) as (a & b & l & ->). by eauto.
Qed.

(** C4, as the code has it.  A decode error on one item is not local to
    it: the exception leaves [processRecords], so the items after it are
    neither decoded nor delivered, whatever they are.  The run is the run of
    the items before it, ended by the error (or by an earlier one). *)
Theorem decode_error_aborts_invocation
    (utcoffset : Z -> Z) (dumps : list (string * value) -> string)
    (decode : string -> result value) (Client : Type)
    (put_record_batch :
       Client -> string -> list FirehoseRecord -> PutOutcome * Client)
    frames r e pre post client streamName :
  decode_error decode r e ->
  let before := processRecords utcoffset dumps decode Client put_record_batch
                  frames pre client streamName in
  processRecords utcoffset dumps decode Client put_record_batch
    frames (pre ++ r :: post) client streamName
  = (match before.1.1 with
     | Ok _ => Raise e
     | Raise earlier => Raise earlier
     end, before.1.2, before.2).
Proof.
  intros Herror before. subst before. unfold processRecords.
  rewrite processRecords_loop_app. cbv zeta.
  destruct (processRecords_loop _ _ _ _ _ _ pre client streamName [])
    as [[[rV|earlier] client'] calls]; cbn [fst snd]; [|done].
  cbn [processRecords_loop].
  rewrite (decode_error_raises utcoffset dumps decode r e Herror).
  cbn [fst snd]. by rewrite app_nil_r.
Qed.

Lemma decode_error_aborts_invocation_witness :
  processRecords (fun _ => 0) TransformerFacts.dumps_text sample_decode
    nat accepting_client 100
    [{| data := control_text |}; {| data := not_gzip_text |};
     {| data := data_text |}] 0%nat "my-stream"
  = (Raise DecodeError, 0%nat, []).
Proof.
  exact (decode_error_aborts_invocation (fun _ => 0)
           TransformerFacts.dumps_text sample_decode nat accepting_client
           100%nat {| data := not_gzip_text |} DecodeError
           [{| data := control_text |}] [{| data := data_text |}]
           0%nat "my-stream"
           (undecodable sample_decode {| data := not_gzip_text |}
              DecodeError eq_refl)).
Defined.

(** C4 as stated fails: an item that cannot be decoded, followed by a well
    formed data message.  The run ends with the decode error and no call of
    the client, although the second item alone is delivered in one call. *)
Lemma undecodable_item_stops_later_items :
  let bad := {| data := not_gzip_text |} in
  let good := {| data := data_text |} in
  let run items :=
    processRecords (fun _ => 0) TransformerFacts.dumps_text sample_decode
      nat accepting_client 100 items 0%nat "my-stream" in
  run [bad; good] = (Raise DecodeError, 0%nat, [])
  /\ (run [good]).1.2 = 1%nat
  /\ length (run [good]).2 = 1%nat
  /\ (_ <- (run [good]).1.1 ;; Ok tt) = Ok tt.
Proof. vm_compute. repeat split; reflexivity. Qed.

(** A data message without [owner]: the lookup raises [KeyError] and the
    item after it is not reached. *)
Example missing_owner_aborts :
  let decode (text : string) :=
    if String.eqb text "first"
    then Ok (PDict [("messageType", PStr "DATA_MESSAGE");
                    ("logEvents", PList [])])
    else Ok empty_payload in
  processRecords (fun _ => 0) TransformerFacts.dumps_text decode
    nat accepting_client 100
    [{| data := "first" |}; {| data := "second" |}] 0%nat "my-stream"
  = (Raise (KeyError "owner"), 0%nat, []).
Proof. vm_compute. reflexivity. Qed.

(** A delivery that raises ends the invocation in the same way. *)
Lemma delivery_error_aborts_invocation
    (utcoffset : Z -> Z) (dumps : list (string * value) -> string)
    (decode : string -> result value) (Client : Type)
    (put_record_batch :
       Client -> string -> list FirehoseRecord -> PutOutcome * Client)
    frames r firehoseRecords e post client streamName :
  firehoseRecords_of utcoffset dumps decode r = Ok (Some firehoseRecords) ->
  let put := putRecordsToFirehoseStream Client put_record_batch
               frames streamName firehoseRecords client 0 20 in
  put.1.1 = Raise e ->
  processRecords utcoffset dumps decode Client put_record_batch
    frames (r :: post) client streamName
  = (Raise e, put.1.2, put.2).
Proof.
  intros Hrecords put Hput. unfold processRecords. cbn [processRecords_loop].
  rewrite Hrecords. fold put. by rewrite Hput.
Qed.

(** C8.  An item whose payload decodes and whose [messageType] is not
    [DATA_MESSAGE] yields no records, and the invocation runs as if the item
    were not in the list: the same result, the same client calls. *)
Theorem other_message_types_are_skipped
    (utcoffset : Z -> Z) (dumps : list (string * value) -> string)
    (decode : string -> result value) (Client : Type)
    (put_record_batch :
       Client -> string -> list FirehoseRecord -> PutOutcome * Client)
    r payload messageType :
  decode (data r) = Ok payload ->
  getitem payload "messageType" = Ok messageType ->
  messageType <> PStr "DATA_MESSAGE" ->
  firehoseRecords_of utcoffset dumps decode r = Ok None
  /\ forall frames pre post client streamName,
       processRecords utcoffset dumps decode Client put_record_batch
         frames (pre ++ r :: post) client streamName
       = processRecords utcoffset dumps decode Client put_record_batch
           frames (pre ++ post) client streamName.
Proof.
  intros Hdecode Htype Hother.
  assert (firehoseRecords_of utcoffset dumps decode r = Ok None) as Hskip.
  { unfold firehoseRecords_of. rewrite Hdecode. cbn [bind].
    rewrite Htype. cbn [bind].
    destruct messageType as [| | | |s| |]; try done.
    cbn [eq_str]. destruct (String.eqb_spec s "DATA_MESSAGE"); [|done].
    by subst. }
  split; [done|].
  intros frames pre post client streamName. unfold processRecords.
  rewrite !processRecords_loop_app. cbv zeta.
  destruct (processRecords_loop _ _ _ _ _ _ pre client streamName [])
    as [[[rV|e] client'] calls]; cbn [fst snd]; [|done].
  cbn [processRecords_loop]. by rewrite Hskip.
Qed.

Lemma other_message_types_are_skipped_witness :
  let run items :=
    processRecords (fun _ => 0) TransformerFacts.dumps_text sample_decode
      nat accepting_client 100 items 0%nat "my-stream" in
  firehoseRecords_of (fun _ => 0) TransformerFacts.dumps_text sample_decode
    {| data := control_text |} = Ok None
  /\ run [{| data := data_text |}; {| data := control_text |};
          {| data := empty_text |}]
     = run [{| data := data_text |}; {| data := empty_text |}].
Proof.
  cbv zeta.
  destruct (other_message_types_are_skipped (fun _ => 0)
              TransformerFacts.dumps_text sample_decode nat accepting_client
              {| data := control_text |} control_payload
              (PStr "CONTROL_MESSAGE") eq_refl eq_refl ltac:(discriminate))
    as [Hskip Hrun].
  split; [exact Hskip|].
  exact (Hrun 100%nat [{| data := data_text |}] [{| data := empty_text |}]
           0%nat "my-stream").
Defined.

(** C9.  The stream name is the text between the first and the second
    [/] of the ARN (or up to its end), as for the ARN of the scenario; the
    extraction raises [IndexError] exactly when the ARN has no [/], and the
    handler then ends before any call; otherwise every call of the handler
    names the extracted stream. *)
Theorem stream_name_is_second_segment :
  stream_name "arn:aws:firehose:us-east-1:123:deliverystream/my-stream"
  = Ok "my-stream"
  /\ (forall pre seg,
        has_sep "/" pre = false -> has_sep "/" seg = false ->
        stream_name (pre +:+ "/" +:+ seg) = Ok seg
        /\ forall rest, stream_name (pre +:+ "/" +:+ seg +:+ "/" +:+ rest) = Ok seg)
  /\ (forall arn, stream_name arn = Raise IndexError <-> has_sep "/" arn = false)
  /\ (forall (utcoffset : Z -> Z) (dumps : list (string * value) -> string)
         (decode : string -> result value) (Client : Type)
         (put_record_batch :
            Client -> string -> list FirehoseRecord -> PutOutcome * Client)
         (frames : nat) (firehose_client : string -> Client) event,
        let run := lambda_handler utcoffset dumps decode Client put_record_batch
                     frames firehose_client event in
        (has_sep "/" (deliveryStreamArn event) = false ->
         run = (Raise IndexError, []))
        /\ (forall streamName,
              stream_name (deliveryStreamArn event) = Ok streamName ->
              Forall (fun call => call_stream call = streamName) run.2)).
Proof.
  split; [reflexivity|].
  assert (forall arn, has_sep "/" arn = false ->
                      stream_name arn = Raise IndexError) as Hnone.
  { intros arn Harn. unfold stream_name. by rewrite split_no_sep. }
  split; [|split].
  - intros pre seg Hpre Hseg. split; [|intros rest].
    + change ("/" +:+ seg) with (String "/" seg).
      unfold stream_name. rewrite split_sep by done.
      by rewrite split_no_sep.
    + change ("/" +:+ seg +:+ "/" +:+ rest)
        with (String "/" (seg +:+ String "/" rest)).
      unfold stream_name. rewrite split_sep by done.
      by rewrite split_sep.
  - intros arn. split; [|by apply Hnone].
    destruct (has_sep "/" arn) eqn:Harn; [|done].
    destruct (split_two _ _ Harn) as (a & b & l & Hsplit).
    unfold stream_name. by rewrite Hsplit.
  - intros utcoffset dumps decode Client put_record_batch frames
      firehose_client event run. subst run. unfold lambda_handler. split.
    + intros Harn. by rewrite (Hnone _ Harn).
    + intros streamName ->. cbn [snd]. apply processRecords_loop_stream.
Qed.

Lemma stream_name_is_second_segment_witness :
  stream_name "arn:aws:firehose:eu-west-1:42:deliverystream/logs/extra"
  = Ok "logs".
Proof.
  exact (proj2 (proj1 (proj2 stream_name_is_second_segment)
                  "arn:aws:firehose:eu-west-1:42:deliverystream" "logs"
                  eq_refl eq_refl) "extra").
Defined.

(** C10.  A data message with an empty [logEvents] list still costs one
    call of the client, with an empty list of records, whatever the client
    answers; when the answer reports zero failures the delivery succeeds at
    once and the empty batch is part of the result. *)
Theorem empty_batch_is_delivered_once
    (utcoffset : Z -> Z) (dumps : list (string * value) -> string)
    (decode : string -> result value) (Client : Type)
    (put_record_batch :
       Client -> string -> list FirehoseRecord -> PutOutcome * Client)
    frames r payload owner logGroup logStream client streamName :
  decode (data r) = Ok payload ->
  getitem payload "messageType" = Ok (PStr "DATA_MESSAGE") ->
  getitem payload "logEvents" = Ok (PList []) ->
  getitem payload "owner" = Ok owner ->
  getitem payload "logGroup" = Ok logGroup ->
  getitem payload "logStream" = Ok logStream ->
  let answer := put_record_batch client streamName [] in
  let call := {| call_stream := streamName; call_records := [];
                 call_outcome := answer.1 |} in
  let run := processRecords utcoffset dumps decode Client put_record_batch
               frames [r] client streamName in
  firehoseRecords_of utcoffset dumps decode r = Ok (Some [])
  /\ (putRecordsToFirehoseStream Client put_record_batch
        frames streamName [] client 0 20).2 = [call]
  /\ run.2 = [call]
  /\ run.1.2 = answer.2
  /\ forall response,
       answer.1 = Returned response -> FailedPutCount response = 0 ->
       run.1.1 = Ok [[]].
Proof.
  intros Hdecode Htype Hevents Howner Hgroup Hstream answer call run.
  assert (firehoseRecords_of utcoffset dumps decode r = Ok (Some []))
    as Hrecords.
  { unfold firehoseRecords_of.
    rewrite Hdecode. cbn [bind]. rewrite Htype. cbn [bind eq_str].
    change ("DATA_MESSAGE" =? "DATA_MESSAGE")%string with true. cbv iota.
    by rewrite Hevents, Howner, Hgroup, Hstream. }
  destruct (deliver_nothing Client put_record_batch frames streamName client
              0 20) as (Hcalls & Hclient & _ & Hzero).
  split; [done|]. split; [exact Hcalls|].
  subst run. unfold processRecords. cbn [processRecords_loop].
  rewrite Hrecords.
  destruct (putRecordsToFirehoseStream Client put_record_batch
              frames streamName [] client 0 20) as [[ended client'] calls].
  cbn [fst snd] in *. subst calls client'.
  destruct ended as [[]|e]; cbn [fst snd].
  - rewrite app_nil_r. by repeat split.
  - repeat split; [done..|].
    intros response Hanswer Hcount. by specialize (Hzero _ Hanswer Hcount).
Qed.

Lemma empty_batch_is_delivered_once_witness :
  processRecords (fun _ => 0) TransformerFacts.dumps_text sample_decode
    nat accepting_client 100 [{| data := empty_text |}] 0%nat "my-stream"
  = (Ok [[]], 1%nat,
     [{| call_stream := "my-stream"; call_records := [];
         call_outcome :=
           Returned {| FailedPutCount := 0; RequestResponses := [] |} |}]).
Proof.
  destruct (empty_batch_is_delivered_once (fun _ => 0)
              TransformerFacts.dumps_text sample_decode nat accepting_client
              100%nat {| data := empty_text |} empty_payload
              (PStr "acct1") (PStr "/app/log") (PStr "stream1")
              0%nat "my-stream" eq_refl eq_refl eq_refl eq_refl eq_refl eq_refl)
    as (_ & _ & Hcalls & Hclient & Hresult).
  specialize (Hresult _ eq_refl eq_refl).
  destruct (processRecords _ _ _ _ _ _ _ _ _) as [[ended client] calls].
  cbn [fst snd] in *. by subst.
Defined.

End PipelineFacts.

(** * Further properties of the code *)

(** ** The retrying delivery, for every client *)

Module DeliveryProperties.
Import Py Transformer Delivery DeliveryFacts.

(** Among the entries of an answer, one past the first [n] carries an error
    code: the loop of lines 71-76 would index [records] out of range. *)
Definition overrun (n : nat) (responses : list RequestResponse) : bool :=
  existsb has_error (drop n responses).

(** A client whose every call raises. *)
Definition always_faults {Client : Type}
    (put_record_batch :
       Client -> string -> list FirehoseRecord -> PutOutcome * Client) : Prop :=
  forall client streamName records,
    exists msg, (put_record_batch client streamName records).1 = Faulted msg.

(** A client that answers one record with three entries, the last of them
    with an error code. *)
Definition overlong_client (calls : nat) (streamName : string)
    (records : list FirehoseRecord) : PutOutcome * nat :=
  (Returned {| FailedPutCount := 1;
               RequestResponses :=
                 [{| ErrorCode := None |}; {| ErrorCode := Some "" |};
                  {| ErrorCode := Some "InternalFailure" |}] |},
   S calls).

(** A client that fails the records ["B"] and ["C"] in its first call, the
    record ["C"] in its second and nothing afterwards. *)
Definition recovering_client (round : nat) (streamName : string)
    (records : list FirehoseRecord) : PutOutcome * nat :=
  let code (r : FirehoseRecord) :=
    match round with
    | O => if String.eqb (Data r) "A" then None else Some "Throttled"
    | S O => if String.eqb (Data r) "C" then Some "Throttled" else None
    | _ => None
    end in
  (Returned {| FailedPutCount := 1;
               RequestResponses := map (fun r => {| ErrorCode := code r |}) records |},
   S round).

(** A client that answers with one entry, an error code, however many
    records it was given. *)
Definition terse_client (calls : nat) (streamName : string)
    (records : list FirehoseRecord) : PutOutcome * nat :=
  (Returned {| FailedPutCount := 1;
               RequestResponses := [{| ErrorCode := Some "Throttled" |}] |},
   S calls).

Lemma has_error_false res :
  has_error res = false <-> ErrorCode res = None \/ ErrorCode res = Some "".
Proof.
  unfold has_error.
  destruct (ErrorCode res) as [[|c code]|]; split; auto; try done.
  by intros [|].
Qed.

(** The loop raises exactly on an overrun, and then [IndexError]. *)
Lemma scan_raises records responses : forall idx codes failedRecords e,
  scan records idx responses codes failedRecords = Raise e
  <-> e = IndexError /\ overrun (length records - idx) responses = true.
Proof.
  unfold overrun.
  induction responses as [|res responses IH]; intros idx codes failedRecords e.
  - cbn [scan]. rewrite drop_nil. cbn. split; [done | by intros [_ ?]].
  - assert (has_error res = false ->
            existsb has_error (drop (length records - idx) (res :: responses))
            = existsb has_error (drop (length records - S idx) responses))
      as Hskip.
    { intros Hres. destruct (length records - idx)%nat as [|k] eqn:Hk.
      - replace (length records - S idx)%nat with 0%nat by lia.
        cbn. by rewrite Hres.
      - replace (length records - S idx)%nat with k by lia. done. }
    cbn [scan].
    destruct (ErrorCode res) as [[|c code]|] eqn:Hcode;
      try (rewrite Hskip by (unfold has_error; by rewrite Hcode); apply IH).
    unfold index. destruct (records !! idx) as [r|] eqn:Hr; cbn [bind].
    + apply lookup_lt_Some in Hr.
      destruct (length records - idx)%nat as [|k] eqn:Hk; [lia|].
      replace k with (length records - S idx)%nat by lia. cbn [drop]. apply IH.
    + apply lookup_ge_None in Hr.
      replace (length records - idx)%nat with 0%nat by lia.
      cbn [drop existsb]. unfold has_error. rewrite Hcode. cbn.
      split; [intros [= ?]; by subst | by intros [-> _]].
Qed.

(** Only the records that have an entry in the answer can be among the
    failed ones. *)
Lemma failed_subset_take records responses :
  sublist (failed_subset records responses)
          (take (length responses) records).
Proof.
  revert responses.
  induction records as [|r records IH]; intros [|res responses]; cbn;
    try apply sublist_nil_l.
  destruct (has_error res).
  - by apply sublist_skip || apply sublist_cons.
  - by apply sublist_cons || apply sublist_skip.
Qed.

(** The loop appends a code and a record together. *)
Lemma scan_paired records responses : forall idx codes failedRecords r,
  scan records idx responses codes failedRecords = Ok r ->
  (length r.1 - length codes = length r.2 - length failedRecords)%nat
  /\ (length codes <= length r.1)%nat
  /\ (length failedRecords <= length r.2)%nat.
Proof.
  induction responses as [|res responses IH]; intros idx codes failedRecords r.
  - cbn [scan]. intros [= <-]. cbn. lia.
  - cbn [scan]. destruct (ErrorCode res) as [[|c code]|]; try apply IH.
    unfold index. destruct (records !! idx) as [x|]; cbn [bind]; [|done].
    intros Hscan. apply IH in Hscan. rewrite !length_app in Hscan.
    cbn in Hscan. lia.
Qed.

Section Run.

Context {Client : Type}.
Variable put_record_batch :
  Client -> string -> list FirehoseRecord -> PutOutcome * Client.

Local Abbreviation deliver :=
  (putRecordsToFirehoseStream Client put_record_batch) (only parsing).

(** What a run of the function looks like, from the budget and the depth it
    starts with: the number of calls, the records of every call, and how the
    last call decides the result. *)
Lemma deliver_run :
  forall frames streamName records client attemptsMade maxAttempts,
  let run := deliver frames streamName records client attemptsMade
               maxAttempts in
  (1 <= length run.2)%nat
  /\ Z.of_nat (length run.2) <= Z.max 1 (maxAttempts - attemptsMade)
  /\ (length run.2 <= S frames)%nat
  /\ Forall (fun call => sublist (call_records call) records) run.2
  /\ (forall n call, run.2 !! S n = Some call -> call_records call <> [])
  /\ exists final,
       last run.2 = Some final
       /\ match run.1.1 with
          | Ok _ =>
              exists errMsg,
                classify (call_records final) (call_outcome final)
                = Ok ([], errMsg)
          | Raise e =>
              (e = IndexError
               /\ classify (call_records final) (call_outcome final) = Raise e)
              \/ (exists failedRecords errMsg,
                    classify (call_records final) (call_outcome final)
                    = Ok (failedRecords, errMsg)
                    /\ failedRecords <> []
                    /\ e = RuntimeError
                             ("Could not put records after "
                              +:+ str_of_int maxAttempts
                              +:+ " attempts. " +:+ errMsg)
                    /\ Z.of_nat (length run.2)
                       = Z.max 1 (maxAttempts - attemptsMade))
              \/ (exists failedRecords errMsg,
                    classify (call_records final) (call_outcome final)
                    = Ok (failedRecords, errMsg)
                    /\ failedRecords <> []
                    /\ e = RecursionError
                    /\ length run.2 = S frames
                    /\ Z.of_nat (S frames) < maxAttempts - attemptsMade)
          end.
Proof.
  apply (deliver_ind
    (fun frames streamName records client attemptsMade maxAttempts =>
    let run := deliver frames streamName records client attemptsMade
                 maxAttempts in
    (1 <= length run.2)%nat
    /\ Z.of_nat (length run.2) <= Z.max 1 (maxAttempts - attemptsMade)
    /\ (length run.2 <= S frames)%nat
    /\ Forall (fun call => sublist (call_records call) records) run.2
    /\ (forall n call, run.2 !! S n = Some call -> call_records call <> [])
    /\ exists final,
         last run.2 = Some final
         /\ match run.1.1 with
            | Ok _ => _
            | Raise e => _
            end)).
  intros frames streamName records client attemptsMade maxAttempts IH.
  pose proof (deliver_cases put_record_batch frames streamName records client
                attemptsMade maxAttempts) as Hrun.
  cbv zeta in Hrun |- *.
  destruct (classify records _) as [[[|r failedRecords] errMsg]|e] eqn:Hclass.
  - rewrite Hrun. cbn [fst snd length last].
    split; [lia|]. split; [lia|]. split; [lia|].
    split; [by repeat constructor|].
    split; [by intros [|n] call|].
    eexists. split; [done|]. by exists errMsg.
  - case_decide as Hbudget; [destruct frames as [|frames']|];
      rewrite Hrun; cbn [fst snd].
    + cbn [length last].
      split; [lia|]. split; [lia|]. split; [lia|].
      split; [by repeat constructor|].
      split; [by intros [|n] call|].
      eexists. split; [done|]. right. right.
      exists (r :: failedRecords), errMsg. repeat split; try done.
      change (Z.of_nat 1) with 1. lia.
    + destruct (IH frames' (r :: failedRecords)
                  (put_record_batch client streamName records).2
                  eq_refl Hbudget)
        as (Hone & Hmax & Hdepth & Hsub & Hsome & final & Hlast & Hend).
      destruct (deliver_first_call put_record_batch frames' streamName
                  (r :: failedRecords)
                  (put_record_batch client streamName records).2
                  (attemptsMade + 1) maxAttempts) as [later Hlater].
      pose proof (classify_sublist _ _ _ _ Hclass) as Hfailed.
      split; [cbn; lia|]. split; [cbn [length]; lia|].
      split; [cbn [length]; lia|].
      split.
      { constructor; [done|].
        eapply Forall_impl; [exact Hsub|].
        intros call Hcall. cbn beta in Hcall.
        by trans (r :: failedRecords). }
      split.
      { intros [|n] call Hcall; cbn in Hcall.
        - rewrite Hlater in Hcall. cbn in Hcall. by injection Hcall as <-.
        - by apply (Hsome n). }
      exists final. split.
      { rewrite Hlater in Hlast |- *. done. }
      destruct (_.1.1) as [[]|e]; [done|].
      destruct Hend as [Hend | [(failed' & errMsg' & Hc & Hne & He & Hn)
                               | (failed' & errMsg' & Hc & Hne & He & Hn & Hd)]];
        [by left | right; left | right; right].
      * exists failed', errMsg'. repeat split; try done.
        cbn [length]. lia.
      * exists failed', errMsg'. repeat split; try done.
        -- cbn [length]. by rewrite Hn.
        -- lia.
    + cbn [length last].
      split; [lia|]. split; [lia|]. split; [lia|].
      split; [by repeat constructor|].
      split; [by intros [|n] call|].
      eexists. split; [done|]. right. left.
      exists (r :: failedRecords), errMsg. repeat split; try done. lia.
  - rewrite Hrun. cbn [fst snd length last].
    split; [lia|]. split; [lia|]. split; [lia|].
    split; [by repeat constructor|].
    split; [by intros [|n] call|].
    eexists. split; [done|]. left. split; [|done].
    unfold classify in Hclass.
    destruct (put_record_batch client streamName records).1
      as [response|msg]; [|done].
    cbn in Hclass. destruct (0 <? FailedPutCount response); [|done].
    destruct (scan records 0 _ [] []) as [?|e'] eqn:Hscan; [done|].
    cbn [bind] in Hclass. injection Hclass as <-.
    by apply scan_raises in Hscan as [-> _].
Qed.

(** Under faults every round submits the whole batch again, as long as the
    recursion limit allows the retries. *)
Lemma faulting_run :
  always_faults put_record_batch ->
  forall frames streamName records client attemptsMade maxAttempts,
    records <> [] ->
    maxAttempts - attemptsMade <= Z.of_nat (S frames) ->
    let run := deliver frames streamName records client attemptsMade
                 maxAttempts in
    Z.of_nat (length run.2) = Z.max 1 (maxAttempts - attemptsMade)
    /\ Forall (fun call => call_records call = records) run.2
    /\ exists msg,
         call_outcome <$> last run.2 = Some (Faulted msg)
         /\ run.1.1
            = Raise (RuntimeError
                       ("Could not put records after "
                        +:+ str_of_int maxAttempts +:+ " attempts. " +:+ msg)).
Proof.
  intros Hfaults.
  apply (deliver_ind
    (fun frames streamName records client attemptsMade maxAttempts =>
    records <> [] ->
    maxAttempts - attemptsMade <= Z.of_nat (S frames) ->
    let run := deliver frames streamName records client attemptsMade
                 maxAttempts in
    Z.of_nat (length run.2) = Z.max 1 (maxAttempts - attemptsMade)
    /\ Forall (fun call => call_records call = records) run.2
    /\ exists msg,
         call_outcome <$> last run.2 = Some (Faulted msg)
         /\ run.1.1 = Raise (RuntimeError _))).
  intros frames streamName records client attemptsMade maxAttempts IH
    Hrecords Hlimit.
  pose proof (deliver_cases put_record_batch frames streamName records client
                attemptsMade maxAttempts) as Hrun.
  cbv zeta in Hrun |- *.
  destruct (Hfaults client streamName records) as [msg Hmsg].
  rewrite Hmsg in Hrun. cbn [classify] in Hrun.
  destruct records as [|r records]; [done|].
  case_decide as Hbudget.
  - destruct frames as [|frames']; [lia|]. rewrite Hrun. cbn [fst snd].
    destruct (IH frames' (r :: records)
                (put_record_batch client streamName (r :: records)).2
                eq_refl Hbudget Hrecords ltac:(lia))
      as (Hcalls & Hsame & msg' & Hlast & Hres).
    split; [cbn [length]; lia|]. split; [by constructor|].
    exists msg'. split; [|done].
    destruct (deliver_first_call put_record_batch frames' streamName
                (r :: records)
                (put_record_batch client streamName (r :: records)).2
                (attemptsMade + 1) maxAttempts) as [later Hlater].
    rewrite Hlater in Hlast |- *. done.
  - rewrite Hrun. cbn [fst snd].
    split; [cbn; lia|]. split; [by repeat constructor|].
    by exists msg.
Qed.

End Run.

(** X1.  Whatever the client does, a delivery calls it at least once and at
    most [max 1 (maxAttempts - attemptsMade)] times: never more than twenty
    times as [processRecords] starts it. *)
Theorem delivery_calls_within_budget :
  forall (Client : Type)
    (put_record_batch :
       Client -> string -> list FirehoseRecord -> PutOutcome * Client)
    frames streamName records client attemptsMade maxAttempts,
    let calls := (putRecordsToFirehoseStream Client put_record_batch
                    frames streamName records client attemptsMade
                    maxAttempts).2 in
    (1 <= length calls)%nat
    /\ Z.of_nat (length calls) <= Z.max 1 (maxAttempts - attemptsMade)
    /\ (length (putRecordsToFirehoseStream Client put_record_batch
                  frames streamName records client 0 20).2 <= 20)%nat.
Proof.
  intros Client put_record_batch frames streamName records client attemptsMade
    maxAttempts calls. subst calls.
  destruct (deliver_run put_record_batch frames streamName records client
              attemptsMade maxAttempts) as (Hone & Hmax & _).
  destruct (deliver_run put_record_batch frames streamName records client 0 20)
    as (_ & Htwenty & _).
  repeat split; [done | done | lia].
Qed.

(** X2.  Every round of a delivery submits a sublist of the batch the
    delivery was given (its records, in their order, none twice or new), and
    a retry round is never empty. *)
Theorem delivery_rounds_stay_within_batch :
  forall (Client : Type)
    (put_record_batch :
       Client -> string -> list FirehoseRecord -> PutOutcome * Client)
    frames streamName records client attemptsMade maxAttempts,
    let calls := (putRecordsToFirehoseStream Client put_record_batch
                    frames streamName records client attemptsMade
                    maxAttempts).2 in
    Forall (fun call => sublist (call_records call) records) calls
    /\ (call_records <$> calls !! 0%nat) = Some records
    /\ forall n call, calls !! S n = Some call -> call_records call <> [].
Proof.
  intros Client put_record_batch frames streamName records client attemptsMade
    maxAttempts calls. subst calls.
  destruct (deliver_run put_record_batch frames streamName records client
              attemptsMade maxAttempts) as (_ & _ & _ & Hsub & Hsome & _).
  destruct (deliver_first_call put_record_batch frames streamName records
              client attemptsMade maxAttempts) as [later Hlater].
  split; [done|]. split; [by rewrite Hlater | done].
Qed.

(** X3.  How a delivery ends.  It returns normally only when its last call
    left no record classified as failed.  It raises [IndexError], out of the
    classification of the last answer; or the [RuntimeError] of line 87, only
    when the last call left records failed and the budget is used up; or
    [RecursionError], only when the last call left records failed, budget is
    left and the recursion limit allows no deeper call: the client has then
    been called once at every depth. *)
Theorem delivery_outcomes :
  forall (Client : Type)
    (put_record_batch :
       Client -> string -> list FirehoseRecord -> PutOutcome * Client)
    frames streamName records client attemptsMade maxAttempts,
    let run := putRecordsToFirehoseStream Client put_record_batch
                 frames streamName records client attemptsMade maxAttempts in
    exists final,
      last run.2 = Some final
      /\ match run.1.1 with
         | Ok _ =>
             exists errMsg,
               classify (call_records final) (call_outcome final)
               = Ok ([], errMsg)
         | Raise e =>
             (e = IndexError
              /\ classify (call_records final) (call_outcome final) = Raise e)
             \/ (exists failedRecords errMsg,
                   classify (call_records final) (call_outcome final)
                   = Ok (failedRecords, errMsg)
                   /\ failedRecords <> []
                   /\ e = RuntimeError
                            ("Could not put records after "
                             +:+ str_of_int maxAttempts
                             +:+ " attempts. " +:+ errMsg)
                   /\ Z.of_nat (length run.2)
                      = Z.max 1 (maxAttempts - attemptsMade))
             \/ (exists failedRecords errMsg,
                   classify (call_records final) (call_outcome final)
                   = Ok (failedRecords, errMsg)
                   /\ failedRecords <> []
                   /\ e = RecursionError
                   /\ length run.2 = S frames
                   /\ Z.of_nat (S frames) < maxAttempts - attemptsMade)
         end.
Proof.
  intros Client put_record_batch frames streamName records client attemptsMade
    maxAttempts run. subst run.
  by destruct (deliver_run put_record_batch frames streamName records client
                 attemptsMade maxAttempts) as (_ & _ & _ & _ & _ & Hend).
Qed.

(** X4.  When every call raises, a delivery of a non-empty batch whose
    retries the recursion limit allows submits the whole batch
    [max 1 (maxAttempts - attemptsMade)] times and then raises the
    [RuntimeError] whose message ends with the text of the last exception. *)
Theorem faults_exhaust_budget (Client : Type)
    (put_record_batch :
       Client -> string -> list FirehoseRecord -> PutOutcome * Client)
    frames streamName records client attemptsMade maxAttempts :
  always_faults put_record_batch ->
  records <> [] ->
  maxAttempts - attemptsMade <= Z.of_nat (S frames) ->
  let run := putRecordsToFirehoseStream Client put_record_batch
               frames streamName records client attemptsMade maxAttempts in
  Z.of_nat (length run.2) = Z.max 1 (maxAttempts - attemptsMade)
  /\ Forall (fun call => call_records call = records) run.2
  /\ exists msg,
       call_outcome <$> last run.2 = Some (Faulted msg)
       /\ run.1.1
          = Raise (RuntimeError
                     ("Could not put records after "
                      +:+ str_of_int maxAttempts +:+ " attempts. " +:+ msg)).
Proof. intros Hfaults Hrecords Hlimit. by apply faulting_run. Qed.

Lemma faults_exhaust_budget_witness :
  let run := putRecordsToFirehoseStream nat faulting_client 100
               "my-stream" [{| Data := "A" |}; {| Data := "B" |}] 0%nat 17 20 in
  Z.of_nat (length run.2) = 3
  /\ run.1
     = (Raise (RuntimeError
                 "Could not put records after 20 attempts. Connection reset"),
        3%nat).
Proof.
  cbv zeta.
  destruct (faults_exhaust_budget nat faulting_client 100%nat "my-stream"
              [{| Data := "A" |}; {| Data := "B" |}] 0%nat 17 20
              ltac:(by eexists) ltac:(discriminate) ltac:(lia))
    as (Hcalls & _ & _).
  split; [exact Hcalls|]. vm_compute. reflexivity.
Defined.

(** X5.  An exception of the client on an empty batch is swallowed: the
    delivery returns normally after this one call. *)
Theorem fault_on_empty_batch_is_swallowed (Client : Type)
    (put_record_batch :
       Client -> string -> list FirehoseRecord -> PutOutcome * Client)
    frames streamName client attemptsMade maxAttempts msg :
  (put_record_batch client streamName []).1 = Faulted msg ->
  putRecordsToFirehoseStream Client put_record_batch
    frames streamName [] client attemptsMade maxAttempts
  = (Ok tt, (put_record_batch client streamName []).2,
     [{| call_stream := streamName; call_records := [];
         call_outcome := Faulted msg |}]).
Proof.
  intros Hfault.
  pose proof (deliver_cases put_record_batch frames streamName [] client
                attemptsMade maxAttempts) as Hrun.
  cbv zeta in Hrun. by rewrite Hfault in Hrun.
Qed.

Lemma fault_on_empty_batch_is_swallowed_witness :
  putRecordsToFirehoseStream nat faulting_client 100 "my-stream" [] 0%nat 0 20
  = (Ok tt, 1%nat,
     [{| call_stream := "my-stream"; call_records := [];
         call_outcome := Faulted "Connection reset" |}]).
Proof.
  exact (fault_on_empty_batch_is_swallowed nat faulting_client 100%nat
           "my-stream" 0%nat 0 20 "Connection reset" eq_refl).
Defined.

(** X6.  The classification of an answer raises exactly when the answer
    counts failures and an entry beyond the last submitted record carries an
    error code, and what it raises is [IndexError]; the delivery then ends
    with this error after the one call, whatever budget is left. *)
Theorem stray_error_code_raises_IndexError :
  (forall records outcome e,
     classify records outcome = Raise e
     <-> e = IndexError
         /\ exists response,
              outcome = Returned response
              /\ 0 < FailedPutCount response
              /\ overrun (length records) (RequestResponses response) = true)
  /\ forall (Client : Type)
       (put_record_batch :
          Client -> string -> list FirehoseRecord -> PutOutcome * Client)
       frames streamName records client attemptsMade maxAttempts response,
       (put_record_batch client streamName records).1 = Returned response ->
       0 < FailedPutCount response ->
       overrun (length records) (RequestResponses response) = true ->
       putRecordsToFirehoseStream Client put_record_batch
         frames streamName records client attemptsMade maxAttempts
       = (Raise IndexError, (put_record_batch client streamName records).2,
          [{| call_stream := streamName; call_records := records;
              call_outcome := Returned response |}]).
Proof.
  assert (forall records outcome e,
     classify records outcome = Raise e
     <-> e = IndexError
         /\ exists response,
              outcome = Returned response
              /\ 0 < FailedPutCount response
              /\ overrun (length records) (RequestResponses response) = true)
    as Hclassify.
  { intros records outcome e. unfold classify.
    destruct outcome as [response|msg]; cbn.
    - destruct (Z.ltb_spec 0 (FailedPutCount response)) as [Hcount|Hcount].
      + pose proof (scan_raises records (RequestResponses response) 0 [] [])
          as Hscan.
        rewrite Nat.sub_0_r in Hscan.
        destruct (scan records 0 _ [] []) as [r|e'] eqn:Hs; cbn [bind].
        * split; [done|]. intros (-> & response' & [= <-] & _ & Hover).
          by pose proof (proj2 (Hscan IndexError) (conj eq_refl Hover)).
        * destruct (proj1 (Hscan e') eq_refl) as [-> Hover].
          split; [intros [= <-]; eauto 6 | by intros [-> _]].
      + split; [done|]. intros (_ & response' & [= <-] & Hpos & _). lia.
    - split; [done|]. by intros (_ & response' & ? & _). }
  split; [exact Hclassify|].
  intros Client put_record_batch frames streamName records client attemptsMade
    maxAttempts response Hanswer Hcount Hover.
  pose proof (deliver_cases put_record_batch frames streamName records client
                attemptsMade maxAttempts) as Hrun.
  cbv zeta in Hrun. rewrite Hanswer in Hrun.
  rewrite (proj2 (Hclassify records (Returned response) IndexError)) in Hrun;
    [done|].
  split; [done|]. by exists response.
Qed.

Lemma stray_error_code_raises_IndexError_witness :
  putRecordsToFirehoseStream nat overlong_client 100
    "my-stream" [{| Data := "A" |}] 0%nat 0 20
  = (Raise IndexError, 1%nat,
     [{| call_stream := "my-stream"; call_records := [{| Data := "A" |}];
         call_outcome :=
           Returned {| FailedPutCount := 1;
                       RequestResponses :=
                         [{| ErrorCode := None |}; {| ErrorCode := Some "" |};
                          {| ErrorCode := Some "InternalFailure" |}] |} |}]).
Proof.
  exact (proj2 stray_error_code_raises_IndexError nat overlong_client
           100%nat "my-stream" [{| Data := "A" |}] 0%nat 0 20 _
           eq_refl eq_refl eq_refl).
Defined.

(** X7.  When an answer that counts failures is classified, the error
    text lists the non-empty error codes of the answer in order, one for
    each record classified as failed. *)
Theorem one_code_per_failed_record records response failedRecords errMsg :
  0 < FailedPutCount response ->
  classify records (Returned response) = Ok (failedRecords, errMsg) ->
  errMsg = "Individual error codes: "
           +:+ join "," (error_codes (RequestResponses response))
  /\ length (error_codes (RequestResponses response)) = length failedRecords
  /\ failedRecords = failed_subset records (RequestResponses response).
Proof.
  intros Hcount Hclass. unfold classify in Hclass. cbn in Hclass.
  apply Z.ltb_lt in Hcount. rewrite Hcount in Hclass.
  destruct (scan records 0 (RequestResponses response) [] []) as [r|e] eqn:Hscan;
    [|done].
  cbn [bind] in Hclass. injection Hclass as <- <-.
  pose proof (scan_paired _ _ _ _ _ _ Hscan) as (Hpair & _ & _).
  apply scan_spec in Hscan. subst r. cbn in *.
  repeat split; [lia].
Qed.

Lemma one_code_per_failed_record_witness :
  classify [{| Data := "A" |}; {| Data := "B" |}; {| Data := "C" |}]
    (recovering_client 0 "my-stream"
       [{| Data := "A" |}; {| Data := "B" |}; {| Data := "C" |}]).1
  = Ok ([{| Data := "B" |}; {| Data := "C" |}],
        "Individual error codes: Throttled,Throttled").
Proof.
  destruct (one_code_per_failed_record
              [{| Data := "A" |}; {| Data := "B" |}; {| Data := "C" |}]
              (match (recovering_client 0 "my-stream"
                        [{| Data := "A" |}; {| Data := "B" |}; {| Data := "C" |}]).1
               with Returned response => response
                  | Faulted _ => {| FailedPutCount := 0; RequestResponses := [] |}
               end)
              [{| Data := "B" |}; {| Data := "C" |}]
              "Individual error codes: Throttled,Throttled"
              eq_refl eq_refl) as (_ & _ & _).
  reflexivity.
Defined.

(** X17.  A record without an entry in the answer is never classified
    as failed: when the answer has fewer entries than there were records, the
    failed records all come from the first records, as many as there are
    entries, and the others are not submitted again. *)
Theorem records_without_entry_are_not_retried
    records response failedRecords errMsg :
  classify records (Returned response) = Ok (failedRecords, errMsg) ->
  sublist failedRecords
          (take (length (RequestResponses response)) records).
Proof.
  intros Hclass. apply classify_spec in Hclass.
  destruct (0 <? FailedPutCount response); destruct Hclass as [-> _].
  - apply failed_subset_take.
  - apply sublist_nil_l.
Qed.

Lemma records_without_entry_are_not_retried_witness :
  classify [{| Data := "A" |}; {| Data := "B" |}; {| Data := "C" |}]
    (terse_client 0 "my-stream"
       [{| Data := "A" |}; {| Data := "B" |}; {| Data := "C" |}]).1
  = Ok ([{| Data := "A" |}], "Individual error codes: Throttled")
  /\ sublist [{| Data := "A" |}] [{| Data := "A" |}].
Proof.
  split; [reflexivity|].
  exact (records_without_entry_are_not_retried
           [{| Data := "A" |}; {| Data := "B" |}; {| Data := "C" |}]
           {| FailedPutCount := 1;
              RequestResponses := [{| ErrorCode := Some "Throttled" |}] |}
           [{| Data := "A" |}] "Individual error codes: Throttled" eq_refl).
Defined.

End DeliveryProperties.

(** ** The record transformer, for every list of events *)

Module TransformerProperties.
Import Py DateTime Transformer TransformerFacts.

(** An event without [id]. *)
Definition event_without_id : value :=
  PDict [("timestamp", PInt 1609459200000); ("message", PStr "hello")].

Section Properties.

Variable utcoffset : Z -> Z.
Variable dumps : list (string * value) -> string.

Local Abbreviation transform :=
  (transformLogEvent utcoffset) (only parsing).
Local Abbreviation create_loop :=
  (createRecords_loop utcoffset dumps) (only parsing).
Local Abbreviation create :=
  (createRecordsFromLogEvents utcoffset dumps) (only parsing).

(** The loop adds one record per event, in order, after the ones it was
    given. *)
Lemma createRecords_loop_ok logEvents owner logGroup logStream :
  forall rV records,
    create_loop logEvents owner logGroup logStream rV = Ok records ->
    exists created,
      records = rV ++ created
      /\ Forall2 (fun logEvent record =>
                    exists d,
                      transform logEvent owner logGroup logStream = Ok d
                      /\ record = {| Data := dumps d |})
                 logEvents created.
Proof.
  induction logEvents as [|logEvent logEvents IH]; intros rV records.
  - cbn. intros [= <-]. exists []. by rewrite app_nil_r.
  - cbn [createRecords_loop].
    destruct (transform logEvent owner logGroup logStream) as [d|] eqn:Hd;
      cbn [bind]; [|done].
    intros Hrest. apply IH in Hrest as (created & -> & Hcreated).
    exists ({| Data := dumps d |} :: created).
    split; [by rewrite <- app_assoc|]. constructor; [by exists d | done].
Qed.

(** The loop stops at the first event that cannot be transformed. *)
Lemma createRecords_loop_raise pre bad post owner logGroup logStream e :
  Forall (fun logEvent =>
            exists d, transform logEvent owner logGroup logStream = Ok d) pre ->
  transform bad owner logGroup logStream = Raise e ->
  forall rV,
    create_loop (pre ++ bad :: post) owner logGroup logStream rV = Raise e.
Proof.
  intros Hpre Hbad. induction Hpre as [|logEvent pre [d Hd] _ IH]; intros rV.
  - cbn. by rewrite Hbad.
  - cbn [app createRecords_loop]. rewrite Hd. cbn [bind]. apply IH.
Qed.

End Properties.

(** X8.  When [createRecordsFromLogEvents] returns, it returns one record
    per log event, in the order of the events: the record of an event holds
    the serialised dict that [transformLogEvent] makes of it. *)
Theorem one_record_per_event
    (utcoffset : Z -> Z) (dumps : list (string * value) -> string)
    logEvents owner logGroup logStream records :
  createRecordsFromLogEvents utcoffset dumps
    (PList logEvents) owner logGroup logStream = Ok records ->
  length records = length logEvents
  /\ Forall2 (fun logEvent record =>
                exists d,
                  transformLogEvent utcoffset logEvent owner logGroup logStream
                  = Ok d
                  /\ record = {| Data := dumps d |})
             logEvents records.
Proof.
  unfold createRecordsFromLogEvents. cbn [iter bind]. intros Hloop.
  apply createRecords_loop_ok in Hloop as (created & -> & Hcreated).
  cbn [app]. split; [|done]. symmetry. by eapply Forall2_length.
Qed.

Lemma one_record_per_event_witness :
  exists records,
    createRecordsFromLogEvents (fun _ => 0) dumps_text
      (PList [scenario_event; later_event])
      (PStr "acct1") (PStr "/app/log") (PStr "stream1")
    = Ok records
    /\ length records = 2%nat.
Proof.
  assert (exists records,
            createRecordsFromLogEvents (fun _ => 0) dumps_text
              (PList [scenario_event; later_event])
              (PStr "acct1") (PStr "/app/log") (PStr "stream1")
            = Ok records) as [records Hrecords]
    by (vm_compute; eexists; reflexivity).
  exists records. split; [exact Hrecords|].
  exact (proj1 (one_record_per_event (fun _ => 0) dumps_text
                  [scenario_event; later_event]
                  (PStr "acct1") (PStr "/app/log") (PStr "stream1")
                  records Hrecords)).
Defined.

(** X9.  [createRecordsFromLogEvents] is all or nothing: the first event
    that [transformLogEvent] rejects makes the call raise that exception,
    whatever the events before it yielded and whatever follows. *)
Theorem first_bad_event_rejects_batch
    (utcoffset : Z -> Z) (dumps : list (string * value) -> string)
    pre bad post owner logGroup logStream e :
  Forall (fun logEvent =>
            exists d,
              transformLogEvent utcoffset logEvent owner logGroup logStream
              = Ok d) pre ->
  transformLogEvent utcoffset bad owner logGroup logStream = Raise e ->
  createRecordsFromLogEvents utcoffset dumps
    (PList (pre ++ bad :: post)) owner logGroup logStream = Raise e.
Proof.
  intros Hpre Hbad. unfold createRecordsFromLogEvents. cbn [iter bind].
  by apply createRecords_loop_raise.
Qed.

Lemma first_bad_event_rejects_batch_witness :
  createRecordsFromLogEvents (fun _ => 0) dumps_text
    (PList [scenario_event; event_without_id; later_event])
    (PStr "acct1") (PStr "/app/log") (PStr "stream1")
  = Raise (KeyError "id").
Proof.
  apply (first_bad_event_rejects_batch (fun _ => 0) dumps_text
           [scenario_event] event_without_id [later_event]).
  - constructor; [|constructor]. eexists. vm_compute. reflexivity.
  - vm_compute. reflexivity.
Defined.

(** X10.  A [logEvents] value that is not a list: the empty text and the
    empty dict give no records; every other value raises [TypeError], the
    numbers, [None] and the booleans because they cannot be iterated, a text
    or a dict because its characters or keys are not events. *)
Theorem logEvents_must_be_a_list
    (utcoffset : Z -> Z) (dumps : list (string * value) -> string)
    logEvents owner logGroup logStream :
  match logEvents with
  | PList _ => True
  | PStr EmptyString | PDict [] =>
      createRecordsFromLogEvents utcoffset dumps
        logEvents owner logGroup logStream = Ok []
  | _ =>
      createRecordsFromLogEvents utcoffset dumps
        logEvents owner logGroup logStream = Raise TypeError
  end.
Proof.
  destruct logEvents as [| | | |[|c s]| |[|[k v] kvs]]; done.
Qed.

End TransformerProperties.

(** ** The pipeline, for every list of items *)

Module PipelineProperties.
Import Py Transformer Delivery Pipeline PipelineFacts.

(** A result with a list prepended to what it returns. *)
Definition prepend {A : Type} (l : list A) (r : result (list A))
  : result (list A) :=
  match r with
  | Ok l' => Ok (l ++ l')
  | Raise e => Raise e
  end.

Section Properties.

Variable utcoffset : Z -> Z.
Variable dumps : list (string * value) -> string.
Variable decode : string -> result value.
Variable Client : Type.
Variable put_record_batch :
  Client -> string -> list FirehoseRecord -> PutOutcome * Client.
Variable frames : nat.

Local Abbreviation deliver :=
  (putRecordsToFirehoseStream Client put_record_batch frames) (only parsing).
Local Abbreviation records_of :=
  (firehoseRecords_of utcoffset dumps decode) (only parsing).
Local Abbreviation loop :=
  (processRecords_loop utcoffset dumps decode Client put_record_batch frames)
  (only parsing).

(** The list [rV] the loop starts with only ever grows at its end. *)
Lemma processRecords_loop_prepend records : forall client streamName rV,
  loop records client streamName rV
  = let run := loop records client streamName [] in
    (prepend rV run.1.1, run.1.2, run.2).
Proof.
  induction records as [|r records IH]; intros client streamName rV.
  - cbn. by rewrite app_nil_r.
  - cbn [processRecords_loop].
    destruct (records_of r) as [[firehoseRecords|]|e]; [| by apply IH | done].
    destruct (deliver streamName firehoseRecords client 0 20)
      as [[[[]|e] client'] calls]; cbn [fst snd]; [|done].
    rewrite (IH client' streamName (rV ++ [firehoseRecords])).
    rewrite (IH client' streamName ([] ++ [firehoseRecords])). cbv zeta.
    destruct (loop records client' streamName []) as [[[rV'|e] client''] calls'];
      cbn [fst snd prepend]; [|done].
    by rewrite <- app_assoc.
Qed.

(** What a successful loop returns and how many calls it took. *)
Lemma processRecords_loop_ok records : forall client streamName rV rV' client' calls,
  loop records client streamName rV = (Ok rV', client', calls) ->
  exists batches,
    Forall2 (fun r batch => records_of r = Ok batch) records batches
    /\ rV' = rV ++ omap id batches
    /\ (length (omap id batches) <= length calls)%nat
    /\ (length calls <= 20 * length (omap id batches))%nat.
Proof.
  induction records as [|r records IH];
    intros client streamName rV rV' client' calls.
  - cbn. intros [= <- <- <-]. exists []. rewrite app_nil_r. cbn.
    repeat split; [constructor | lia | lia].
  - cbn [processRecords_loop].
    destruct (records_of r) as [[firehoseRecords|]|e] eqn:Hr; [| |done].
    + pose proof (DeliveryProperties.deliver_run put_record_batch frames
                    streamName firehoseRecords client 0 20)
        as (Hone & Hmax & _).
      destruct (deliver streamName firehoseRecords client 0 20)
        as [[[[]|e] client1] calls1]; cbn [fst snd] in *; [|done].
      destruct (loop records client1 streamName (rV ++ [firehoseRecords]))
        as [[ended client2] calls2] eqn:Hlater.
      cbn [fst snd]. intros [= -> <- <-].
      apply IH in Hlater as (batches & Hbatches & -> & Hlow & Hhigh).
      exists (Some firehoseRecords :: batches).
      split; [by constructor|].
      change (omap id (Some firehoseRecords :: batches))
        with (firehoseRecords :: omap id batches).
      split; [by rewrite <- app_assoc|].
      rewrite length_app. cbn [length]. lia.
    + intros Hlater.
      apply IH in Hlater as (batches & Hbatches & -> & Hlow & Hhigh).
      exists (None :: batches). split; [by constructor|]. by cbn.
Qed.

(** Twenty calls per item at most, also when the loop raises. *)
Lemma processRecords_loop_calls records : forall client streamName rV,
  (length (loop records client streamName rV).2 <= 20 * length records)%nat.
Proof.
  induction records as [|r records IH]; intros client streamName rV.
  - cbn. lia.
  - cbn [processRecords_loop].
    destruct (records_of r) as [[firehoseRecords|]|e];
      [| specialize (IH client streamName rV); cbn [length]; lia
       | cbn; lia].
    pose proof (DeliveryProperties.deliver_run put_record_batch frames
                  streamName firehoseRecords client 0 20) as (_ & Hmax & _).
    destruct (deliver streamName firehoseRecords client 0 20)
      as [[[[]|e] client1] calls1]; cbn [fst snd length] in *; [|lia].
    specialize (IH client1 streamName (rV ++ [firehoseRecords])).
    rewrite length_app. lia.
Qed.

End Properties.

Lemma split_segments sep s :
  Forall (fun segment => has_sep sep segment = false) (split sep s).
Proof.
  induction s as [|c s IH]; cbn [split]; [by repeat constructor|].
  destruct (Ascii.eqb c sep) eqn:Hc; [by constructor|].
  destruct (split sep s) as [|segment segments].
  { constructor; [|constructor]. cbn [has_sep]. by rewrite Hc. }
  inversion IH as [|? ? Hsegment Hsegments]; subst.
  constructor; [|done]. cbn [has_sep]. by rewrite Hc, Hsegment.
Qed.

(** X12.  When [processRecords] returns, its result lists the record
    batches of the data messages among the items, in the order of the items,
    and nothing for the other items; every item was decoded. *)
Theorem result_lists_data_batches
    (utcoffset : Z -> Z) (dumps : list (string * value) -> string)
    (decode : string -> result value) (Client : Type)
    (put_record_batch :
       Client -> string -> list FirehoseRecord -> PutOutcome * Client)
    frames records client streamName rV client' calls :
  processRecords utcoffset dumps decode Client put_record_batch
    frames records client streamName = (Ok rV, client', calls) ->
  exists batches,
    Forall2 (fun r batch =>
               firehoseRecords_of utcoffset dumps decode r = Ok batch)
            records batches
    /\ rV = omap id batches.
Proof.
  unfold processRecords. intros Hrun.
  apply processRecords_loop_ok in Hrun as (batches & Hbatches & -> & _).
  by exists batches.
Qed.

Lemma result_lists_data_batches_witness :
  exists batches,
    Forall2 (fun r batch =>
               firehoseRecords_of (fun _ => 0) TransformerFacts.dumps_text
                 sample_decode r = Ok batch)
            [{| data := control_text |}; {| data := empty_text |}] batches
    /\ [[]] = omap id batches.
Proof.
  assert (exists client' calls,
            processRecords (fun _ => 0) TransformerFacts.dumps_text
              sample_decode nat accepting_client 100
              [{| data := control_text |}; {| data := empty_text |}]
              0%nat "my-stream" = (Ok [[]], client', calls))
    as (client' & calls & Hrun)
    by (vm_compute; do 2 eexists; reflexivity).
  exact (result_lists_data_batches (fun _ => 0) TransformerFacts.dumps_text
           sample_decode nat accepting_client 100%nat
           [{| data := control_text |}; {| data := empty_text |}]
           0%nat "my-stream" [[]] client' calls Hrun).
Defined.

(** X13.  [processRecords] never calls the client more than twenty times
    per item; and when it returns, every batch of its result took at least
    one call and at most twenty. *)
Theorem calls_per_item_are_bounded :
  forall (utcoffset : Z -> Z) (dumps : list (string * value) -> string)
    (decode : string -> result value) (Client : Type)
    (put_record_batch :
       Client -> string -> list FirehoseRecord -> PutOutcome * Client)
    frames records client streamName,
    let run := processRecords utcoffset dumps decode Client put_record_batch
                 frames records client streamName in
    (length run.2 <= 20 * length records)%nat
    /\ match run.1.1 with
       | Ok rV => (length rV <= length run.2 <= 20 * length rV)%nat
       | Raise _ => True
       end.
Proof.
  intros utcoffset dumps decode Client put_record_batch frames records client
    streamName run. subst run. unfold processRecords.
  split; [apply processRecords_loop_calls|].
  destruct (processRecords_loop _ _ _ _ _ _ records client streamName [])
    as [[[rV|e] client'] calls] eqn:Hrun; cbn [fst snd]; [|done].
  apply processRecords_loop_ok in Hrun as (batches & _ & -> & Hlow & Hhigh).
  cbn [app]. lia.
Qed.

(** X14.  Processing a list of items in one invocation is processing a
    first part and then, if that returned, the rest with the client as the
    first part left it: the results and the calls are concatenated, and an
    exception of the first part is the outcome of the whole. *)
Theorem processRecords_app :
  forall (utcoffset : Z -> Z) (dumps : list (string * value) -> string)
    (decode : string -> result value) (Client : Type)
    (put_record_batch :
       Client -> string -> list FirehoseRecord -> PutOutcome * Client)
    frames pre post client streamName,
    let process := processRecords utcoffset dumps decode Client
                     put_record_batch frames in
    process (pre ++ post) client streamName
    = let first := process pre client streamName in
      match first.1.1 with
      | Ok rV =>
          let second := process post first.1.2 streamName in
          (prepend rV second.1.1, second.1.2, first.2 ++ second.2)
      | Raise e => first
      end.
Proof.
  intros utcoffset dumps decode Client put_record_batch frames pre post client
    streamName process. subst process. unfold processRecords.
  rewrite processRecords_loop_app. cbv zeta.
  destruct (processRecords_loop _ _ _ _ _ _ pre client streamName [])
    as [[[rV|e] client'] calls]; cbn [fst snd]; [|done].
  by rewrite (processRecords_loop_prepend _ _ _ _ _ _ post client' streamName
                rV).
Qed.

(** X15.  Fail fast: when the items before an item are processed and the
    delivery of the item's records raises, [processRecords] raises that
    exception with the calls made so far; no item after it is looked at. *)
Theorem delivery_error_stops_invocation
    (utcoffset : Z -> Z) (dumps : list (string * value) -> string)
    (decode : string -> result value) (Client : Type)
    (put_record_batch :
       Client -> string -> list FirehoseRecord -> PutOutcome * Client)
    frames pre r post client streamName rV client' calls firehoseRecords e :
  processRecords utcoffset dumps decode Client put_record_batch
    frames pre client streamName = (Ok rV, client', calls) ->
  firehoseRecords_of utcoffset dumps decode r = Ok (Some firehoseRecords) ->
  let put := putRecordsToFirehoseStream Client put_record_batch
               frames streamName firehoseRecords client' 0 20 in
  put.1.1 = Raise e ->
  processRecords utcoffset dumps decode Client put_record_batch
    frames (pre ++ r :: post) client streamName
  = (Raise e, put.1.2, calls ++ put.2).
Proof.
  intros Hpre Hrecords put Hput. unfold processRecords in *.
  rewrite processRecords_loop_app, Hpre. cbv zeta. cbn [fst snd].
  cbn [processRecords_loop]. rewrite Hrecords. fold put. by rewrite Hput.
Qed.

Lemma delivery_error_stops_invocation_witness :
  exists e client' calls,
    processRecords (fun _ => 0) TransformerFacts.dumps_text sample_decode
      nat DeliveryFacts.failing_client 100
      [{| data := control_text |}; {| data := data_text |};
       {| data := empty_text |}] 0%nat "my-stream"
    = (Raise e, client', calls)
    /\ client' = 20%nat /\ length calls = 20%nat.
Proof.
  destruct (firehoseRecords_of (fun _ => 0) TransformerFacts.dumps_text
              sample_decode {| data := data_text |})
    as [[firehoseRecords|]|] eqn:Hrecords;
    [| by vm_compute in Hrecords | by vm_compute in Hrecords].
  assert (exists r, firehoseRecords = [r]) as [r ->]
    by (vm_compute in Hrecords; injection Hrecords as <-; by eexists).
  destruct (putRecordsToFirehoseStream nat DeliveryFacts.failing_client
              100 "my-stream" [r] 0%nat 0 20).1.1 as [[]|e] eqn:Hput.
  { pose proof (DeliveryFacts.total_failure_run DeliveryFacts.failing_client
                  DeliveryFacts.failing_client_total_failure
                  100%nat "my-stream" [r] 0%nat 0 20 ltac:(discriminate)
                  ltac:(lia))
      as (_ & _ & response & _ & Hraise).
    cbv zeta in Hraise. by rewrite Hput in Hraise. }
  assert (processRecords (fun _ => 0) TransformerFacts.dumps_text
            sample_decode nat DeliveryFacts.failing_client 100
            [{| data := control_text |}] 0%nat "my-stream" = (Ok [], 0%nat, []))
    as Hpre by (vm_compute; reflexivity).
  pose proof (delivery_error_stops_invocation (fun _ => 0)
                TransformerFacts.dumps_text sample_decode nat
                DeliveryFacts.failing_client 100%nat
                [{| data := control_text |}] {| data := data_text |}
                [{| data := empty_text |}] 0%nat "my-stream" [] 0%nat []
                [r] e Hpre Hrecords Hput) as Hrun.
  exists e. eexists _, _. split; [exact Hrun|].
  pose proof (DeliveryFacts.total_failure_run DeliveryFacts.failing_client
                DeliveryFacts.failing_client_total_failure
                100%nat "my-stream" [r] 0%nat 0 20 ltac:(discriminate)
                ltac:(lia))
    as (Hcalls & _ & _).
  cbv zeta in Hcalls. cbn [app]. split; [|lia].
  clear. generalize r. intros [text]. vm_compute. reflexivity.
Defined.

(** X16.  The stream name the handler extracts never contains a [/]. *)
Theorem stream_name_has_no_slash arn streamName :
  stream_name arn = Ok streamName -> has_sep "/" streamName = false.
Proof.
  unfold stream_name, index. intros Hname.
  destruct (split "/" arn !! 1%nat) as [segment|] eqn:Hsegment; [|done].
  injection Hname as <-.
  pose proof (split_segments "/" arn) as Hall.
  rewrite Forall_lookup in Hall. by apply (Hall 1%nat).
Qed.

Lemma stream_name_has_no_slash_witness :
  has_sep "/" "my-stream" = false.
Proof.
  exact (stream_name_has_no_slash
           "arn:aws:firehose:us-east-1:123:deliverystream/my-stream/extra"
           "my-stream" eq_refl).
Defined.

End PipelineProperties.
